(** * CatAdvisor API: a shallow embedding of [main.py] and [schemas.py]

    The development follows the layering of the program:

    - Python values, floats (IEEE binary64, as Rocq's primitive floats)
      and strings (UTF-8 text);
    - the pydantic schemas of [schemas.py], as records with one
      validation function per schema;
    - the document-access layer ([database.py], which is not part of the
      sources at hand and is modelled from the specification);
    - the helpers and request handlers of [main.py];
    - the properties of the handlers.

    The embedding starts after request decoding: a request body is a
    record with one entry per declared field, holding a value of the
    field's declared Python type when the key carries one. For a field
    declared [Optional], and for a required field, the entry is an
    [option]: [None] stands for a key that is absent or null (both mean
    [None] for the former, both are rejected for the latter). For a field
    that is not [Optional] and has a default, the entry tells the absent
    key ([Omitted], which takes the default) from an explicit null
    ([Null], which is rejected).

    Strings are sequences of bytes holding UTF-8 text; lengths and slices
    count characters, as Python does. *)

From Stdlib Require Import ZArith Floats Ascii String List Lia.
From stdpp Require Import base option strings list gmap pretty.

Local Open Scope Z_scope.
Local Open Scope string_scope.

(** ** Python floats *)

Module PyFloat.

  (** [a <= b] and [a < b] on Python floats are the IEEE comparisons:
      both are false as soon as an operand is NaN. *)
Definition le (a b : float) : bool := PrimFloat.leb a b.
Definition lt (a b : float) : bool := PrimFloat.ltb a b.

  (** [min(a, b)] keeps its first argument unless the second is strictly
      smaller; [max(a, b)] unless the second is strictly greater. *)
Definition min (a b : float) : float := if lt b a then b else a.
Definition max (a b : float) : float := if lt a b then b else a.

Definition is_nan (a : float) : bool := PrimFloat.is_nan a.

End PyFloat.

(** ** Python strings *)

(** [c.lower()] on one code unit: only the ASCII capitals move. *)
Definition ascii_lower (c : ascii) : ascii :=
  let n := N_of_ascii c in
  if ((65 <=? n) && (n <=? 90))%N then ascii_of_N (n + 32) else c.

(** [s.lower()], for the ASCII text the program applies it to (the
    names of the schema classes). *)
Fixpoint lower (s : string) : string :=
  match s with
  | EmptyString => EmptyString
  | String c s' => String (ascii_lower c) (lower s')
  end.

(** The bytes [10xxxxxx] continue the character that the bytes before
    them started. *)
Definition is_continuation (c : ascii) : bool :=
  let n := N_of_ascii c in ((128 <=? n) && (n <? 192))%N.

Definition starts_inside (g : string) : bool :=
  match g with
  | String c _ => is_continuation c
  | EmptyString => false
  end.

(** The characters of a string, each with all of its bytes. *)
Fixpoint chars (s : string) : list string :=
  match s with
  | EmptyString => []
  | String c s' =>
      match chars s' with
      | g :: gs => if starts_inside g then String c g :: gs else String c "" :: g :: gs
      | [] => [String c ""]
      end
  end.

(** [len(s)] *)
Definition len (s : string) : nat := length (chars s).

(** [s[:n]] *)
Definition str_prefix (n : nat) (s : string) : string :=
  String.concat "" (take n (chars s)).

(** Truth value of an [Optional[str]]: [None] and [""] are falsy. *)
Definition truthy (o : option string) : bool :=
  match o with
  | Some s => negb (String.eqb s "")
  | None => false
  end.

(** ** Values and documents *)

(** The values found in request bodies and stored documents. *)
Inductive value :=
| VNone
| VBool (b : bool)
| VInt (n : Z)
| VFloat (x : float)
| VStr (s : string)
| VList (l : list string)
| VObjectId (oid : N)
| VDatetime (t : Z).

(** A document is a Python [dict] with string keys. *)
Abbreviation doc := (gmap string value).

(** What a request says about a field that is not [Optional] and has a
    default: nothing, null, or a value. *)
Inductive supplied (A : Type) :=
| Omitted
| Null
| Given (a : A).
Arguments Omitted {A}.
Arguments Null {A}.
Arguments Given {A} a.

(** The value such a field takes, and the value given, if any. *)
Definition or_default {A} (dflt : A) (v : supplied A) : A :=
  match v with Given a => a | _ => dflt end.
Definition given {A} (v : supplied A) : option A :=
  match v with Given a => Some a | _ => None end.

Definition opt_str (o : option string) : value :=
  match o with Some s => VStr s | None => VNone end.
Definition opt_float (o : option float) : value :=
  match o with Some x => VFloat x | None => VNone end.
Definition opt_datetime (o : option Z) : value :=
  match o with Some t => VDatetime t | None => VNone end.

(** ** The runtime the program relies on

    Four library functions are taken as they are: Python's [str] on a
    value, pydantic's [HttpUrl] check, the store's regular-expression
    compiler for the patterns that the concrete fragment below does not
    cover ([None]: the pattern does not compile), and the store's test
    that two characters are the same letter, case apart, when one of them
    is not ASCII. *)
Class Runtime := {
  py_str : value → string;
  is_http_url : string → bool;
  pcre_compile : string → string → option (string → bool);
  unicode_same_letter : string → string → bool;
}.

(** A character made of one ASCII byte. *)
Definition ascii_char (ch : string) : option ascii :=
  match ch with
  | String a EmptyString => if (N_of_ascii a <? 128)%N then Some a else None
  | _ => None
  end.

(** Two characters are the same letter, case apart: two ASCII characters
    when they are equal once in lower case; otherwise the store's engine
    decides. *)
Definition same_letter `{Runtime} (p c : string) : bool :=
  match ascii_char p, ascii_char c with
  | Some a, Some b => Ascii.eqb (ascii_lower a) (ascii_lower b)
  | _, _ => unicode_same_letter p c
  end.

(** ** Outcomes of a request *)

(** One entry per offending field: its name and the violated constraint. *)
Definition FieldError : Type := string * string.

Inductive error :=
| ValidationError (errs : list FieldError)   (* request rejected by its schema *)
| ModelError (errs : list FieldError)        (* a model built inside a handler is invalid *)
| StoreUnavailable
| WriteFailure (msg : string)
| QueryFailure (msg : string).

Inductive result (A : Type) :=
| Ok (a : A)
| Err (e : error).
Arguments Ok {A} a.
Arguments Err {A} e.

Definition is_validation_error {A} (r : result A) : bool :=
  match r with
  | Err (ValidationError _) => true
  | _ => false
  end.

(** ** Schemas ([schemas.py])

    Every schema comes as two records: the decoded input ([CatIn.t], all
    fields optional) and the validated model ([Cat.t], defaults filled
    in). [errors] lists the violated field constraints, in declaration
    order, and [validate] yields the model when there are none. *)

(** Every schema derives from [BaseModel], which dumps it to a dict. *)
Class BaseModel (A : Type) := model_dump : A → doc.

(** The constraints of [pydantic.Field] and of the annotated types. *)
Module Field.
Section Field.
Context `{Runtime}.

(** [Field(...)] or no default: the field must carry a value. *)
Definition required {A} (field : string) (v : option A) : list FieldError :=
  match v with
  | Some _ => []
  | None => [(field, "missing")]
  end.

(** [ge=bound]: [v >= bound] *)
Definition ge (field : string) (bound : float) (v : option float) : list FieldError :=
  match v with
  | Some x => if PyFloat.le bound x then [] else [(field, "greater_than_equal")]
  | None => []
  end.

(** [le=bound]: [v <= bound] *)
Definition le (field : string) (bound : float) (v : option float) : list FieldError :=
  match v with
  | Some x => if PyFloat.le x bound then [] else [(field, "less_than_equal")]
  | None => []
  end.

(** [max_length=n] *)
Definition max_length (field : string) (n : nat) (v : option string) : list FieldError :=
  match v with
  | Some s => if (len s <=? n)%nat then [] else [(field, "string_too_long")]
  | None => []
  end.

(** A field that is not [Optional] does not take null. *)
Definition not_null {A} (field : string) (v : supplied A) : list FieldError :=
  match v with
  | Null => [(field, "none_not_allowed")]
  | _ => []
  end.

(** [Literal[...]] *)
Definition literal (field : string) (allowed : list string) (v : option string)
  : list FieldError :=
  match v with
  | Some s => if existsb (String.eqb s) allowed then [] else [(field, "literal_error")]
  | None => []
  end.

(** [HttpUrl] *)
Definition http_url (field : string) (v : option string) : list FieldError :=
  match v with
  | Some s => if is_http_url s then [] else [(field, "url_parsing")]
  | None => []
  end.

(** Latitude and longitude bounds, as every schema declares them. *)
Definition lat_bounds (field : string) (v : option float) : list FieldError :=
  ge field (-90)%float v ++ le field 90%float v.
Definition lng_bounds (field : string) (v : option float) : list FieldError :=
  ge field (-180)%float v ++ le field 180%float v.

End Field.
End Field.

(** The nine resource types (the schema classes). *)
Inductive Model :=
| User | Cat | Sighting | Place | Post | Emergency | Report | Badge | Article.

Module UserIn.
Record t := mk {
  email : option string;
  nickname : option string;
  avatar_url : option string;
  bio : option string;
  role : supplied string;
  points : supplied Z;
  badges : supplied (list string);
  is_active : supplied bool;
  }.
End UserIn.

Module User.
Record t := mk {
  email : string;
  nickname : string;
  avatar_url : option string;
  bio : option string;
  role : string;
  points : Z;
  badges : list string;
  is_active : bool;
  }.

Definition roles : list string := ["user"; "volunteer"; "moderator"; "admin"].

Section Validation.
Context `{Runtime}.

Definition errors (raw : UserIn.t) : list FieldError :=
  Field.required "email" (UserIn.email raw)
  ++ Field.required "nickname" (UserIn.nickname raw)
  ++ Field.max_length "nickname" 40 (UserIn.nickname raw)
  ++ Field.http_url "avatar_url" (UserIn.avatar_url raw)
  ++ Field.max_length "bio" 300 (UserIn.bio raw)
  ++ Field.not_null "role" (UserIn.role raw)
  ++ Field.literal "role" roles (given (UserIn.role raw))
  ++ Field.not_null "points" (UserIn.points raw)
  ++ Field.not_null "badges" (UserIn.badges raw)
  ++ Field.not_null "is_active" (UserIn.is_active raw).

Definition validate (raw : UserIn.t) : list FieldError + t :=
  match errors raw, UserIn.email raw, UserIn.nickname raw with
  | [], Some e, Some n =>
      inr {| email := e;
             nickname := n;
             avatar_url := UserIn.avatar_url raw;
             bio := UserIn.bio raw;
             role := or_default "user" (UserIn.role raw);
             points := or_default 0 (UserIn.points raw);
             badges := or_default [] (UserIn.badges raw);
             is_active := or_default true (UserIn.is_active raw) |}
  | es, _, _ => inl es
  end.
End Validation.

#[global] Instance dump : BaseModel t := λ u,
  list_to_map
    [ ("email", VStr (email u));
      ("nickname", VStr (nickname u));
      ("avatar_url", opt_str (avatar_url u));
      ("bio", opt_str (bio u));
      ("role", VStr (role u));
      ("points", VInt (points u));
      ("badges", VList (badges u));
      ("is_active", VBool (is_active u)) ].
End User.

Module CatIn.
Record t := mk {
  name : option string;
  description : option string;
  last_known_lat : option float;
  last_known_lng : option float;
  status : supplied string;
  colony : option string;
  photo_url : option string;
  }.
End CatIn.

Module Cat.
Record t := mk {
  name : option string;
  description : option string;
  last_known_lat : option float;
  last_known_lng : option float;
  status : string;
  colony : option string;
  photo_url : option string;
  }.

Definition statuses : list string := ["unknown"; "sterilized"; "adopted"; "injured"].

Section Validation.
Context `{Runtime}.

(** The constraints on the fields other than the coordinates. *)
Definition other_errors (raw : CatIn.t) : list FieldError :=
  Field.max_length "description" 500 (CatIn.description raw)
  ++ Field.not_null "status" (CatIn.status raw)
  ++ Field.literal "status" statuses (given (CatIn.status raw))
  ++ Field.http_url "photo_url" (CatIn.photo_url raw).

Definition errors (raw : CatIn.t) : list FieldError :=
  Field.lat_bounds "last_known_lat" (CatIn.last_known_lat raw)
  ++ Field.lng_bounds "last_known_lng" (CatIn.last_known_lng raw)
  ++ other_errors raw.

Definition validate (raw : CatIn.t) : list FieldError + t :=
  match errors raw with
  | [] =>
      inr {| name := CatIn.name raw;
             description := CatIn.description raw;
             last_known_lat := CatIn.last_known_lat raw;
             last_known_lng := CatIn.last_known_lng raw;
             status := or_default "unknown" (CatIn.status raw);
             colony := CatIn.colony raw;
             photo_url := CatIn.photo_url raw |}
  | es => inl es
  end.
End Validation.

#[global] Instance dump : BaseModel t := λ c,
  list_to_map
    [ ("name", opt_str (name c));
      ("description", opt_str (description c));
      ("last_known_lat", opt_float (last_known_lat c));
      ("last_known_lng", opt_float (last_known_lng c));
      ("status", VStr (status c));
      ("colony", opt_str (colony c));
      ("photo_url", opt_str (photo_url c)) ].
End Cat.

Module SightingIn.
Record t := mk {
  cat_id : option string;
  lat : option float;
  lng : option float;
  note : option string;
  photo_url : option string;
  status : supplied string;
  created_by : option string;
  seen_at : option Z;
}.
End SightingIn.

Module Sighting.
Record t := mk {
  cat_id : option string;
  lat : float;
  lng : float;
  note : option string;
  photo_url : option string;
  status : string;
  created_by : option string;
  seen_at : option Z;
}.

Definition statuses : list string := ["normal"; "urgent"].

Section Validation.
Context `{Runtime}.

Definition other_errors (raw : SightingIn.t) : list FieldError :=
  Field.max_length "note" 400 (SightingIn.note raw)
  ++ Field.http_url "photo_url" (SightingIn.photo_url raw)
  ++ Field.not_null "status" (SightingIn.status raw)
  ++ Field.literal "status" statuses (given (SightingIn.status raw)).

Definition errors (raw : SightingIn.t) : list FieldError :=
  Field.required "lat" (SightingIn.lat raw)
  ++ Field.lat_bounds "lat" (SightingIn.lat raw)
  ++ Field.required "lng" (SightingIn.lng raw)
  ++ Field.lng_bounds "lng" (SightingIn.lng raw)
  ++ other_errors raw.

Definition validate (raw : SightingIn.t) : list FieldError + t :=
  match errors raw, SightingIn.lat raw, SightingIn.lng raw with
  | [], Some la, Some lo =>
      inr {| cat_id := SightingIn.cat_id raw;
             lat := la;
             lng := lo;
             note := SightingIn.note raw;
             photo_url := SightingIn.photo_url raw;
             status := or_default "normal" (SightingIn.status raw);
             created_by := SightingIn.created_by raw;
             seen_at := SightingIn.seen_at raw |}
  | es, _, _ => inl es
  end.
End Validation.

#[global] Instance dump : BaseModel t := λ s,
  list_to_map
    [ ("cat_id", opt_str (cat_id s));
      ("lat", VFloat (lat s));
      ("lng", VFloat (lng s));
      ("note", opt_str (note s));
      ("photo_url", opt_str (photo_url s));
      ("status", VStr (status s));
      ("created_by", opt_str (created_by s));
      ("seen_at", opt_datetime (seen_at s)) ].
End Sighting.

Module PlaceIn.
Record t := mk {
  name : option string;
  category : option string;
  description : option string;
  lat : option float;
  lng : option float;
  address : option string;
  opening_hours : option string;
  contact : option string;
  website : option string;
  rating : option float;
  rating_count : supplied Z;
}.
End PlaceIn.

Module Place.
Record t := mk {
  name : string;
  category : string;
  description : option string;
  lat : float;
  lng : float;
  address : option string;
  opening_hours : option string;
  contact : option string;
  website : option string;
  rating : option float;
  rating_count : Z;
}.

Definition categories : list string := ["cat_cafe"; "shelter"; "colony"; "event"; "art"].

Section Validation.
Context `{Runtime}.

Definition other_errors (raw : PlaceIn.t) : list FieldError :=
  Field.required "name" (PlaceIn.name raw)
  ++ Field.required "category" (PlaceIn.category raw)
  ++ Field.literal "category" categories (PlaceIn.category raw)
  ++ Field.max_length "description" 600 (PlaceIn.description raw)
  ++ Field.http_url "website" (PlaceIn.website raw)
  ++ Field.ge "rating" 0%float (PlaceIn.rating raw)
  ++ Field.le "rating" 5%float (PlaceIn.rating raw)
  ++ Field.not_null "rating_count" (PlaceIn.rating_count raw).

Definition errors (raw : PlaceIn.t) : list FieldError :=
  Field.required "lat" (PlaceIn.lat raw)
  ++ Field.lat_bounds "lat" (PlaceIn.lat raw)
  ++ Field.required "lng" (PlaceIn.lng raw)
  ++ Field.lng_bounds "lng" (PlaceIn.lng raw)
  ++ other_errors raw.

Definition validate (raw : PlaceIn.t) : list FieldError + t :=
  match errors raw, PlaceIn.name raw, PlaceIn.category raw,
        PlaceIn.lat raw, PlaceIn.lng raw with
  | [], Some n, Some c, Some la, Some lo =>
      inr {| name := n;
             category := c;
             description := PlaceIn.description raw;
             lat := la;
             lng := lo;
             address := PlaceIn.address raw;
             opening_hours := PlaceIn.opening_hours raw;
             contact := PlaceIn.contact raw;
             website := PlaceIn.website raw;
             rating := PlaceIn.rating raw;
             rating_count := or_default 0 (PlaceIn.rating_count raw) |}
  | es, _, _, _, _ => inl es
  end.
End Validation.

#[global] Instance dump : BaseModel t := λ p,
  list_to_map
    [ ("name", VStr (name p));
      ("category", VStr (category p));
      ("description", opt_str (description p));
      ("lat", VFloat (lat p));
      ("lng", VFloat (lng p));
      ("address", opt_str (address p));
      ("opening_hours", opt_str (opening_hours p));
      ("contact", opt_str (contact p));
      ("website", opt_str (website p));
      ("rating", opt_float (rating p));
      ("rating_count", VInt (rating_count p)) ].
End Place.

Module EmergencyIn.
Record t := mk {
  reporter_id : option string;
  lat : option float;
  lng : option float;
  description : option string;
  photo_url : option string;
  status : supplied string;
}.
End EmergencyIn.

Module Emergency.
Record t := mk {
  reporter_id : option string;
  lat : float;
  lng : float;
  description : string;
  photo_url : option string;
  status : string;
}.

Definition statuses : list string := ["open"; "in_progress"; "resolved"].

Section Validation.
Context `{Runtime}.

Definition other_errors (raw : EmergencyIn.t) : list FieldError :=
  Field.required "description" (EmergencyIn.description raw)
  ++ Field.max_length "description" 500 (EmergencyIn.description raw)
  ++ Field.http_url "photo_url" (EmergencyIn.photo_url raw)
  ++ Field.not_null "status" (EmergencyIn.status raw)
  ++ Field.literal "status" statuses (given (EmergencyIn.status raw)).

Definition errors (raw : EmergencyIn.t) : list FieldError :=
  Field.required "lat" (EmergencyIn.lat raw)
  ++ Field.lat_bounds "lat" (EmergencyIn.lat raw)
  ++ Field.required "lng" (EmergencyIn.lng raw)
  ++ Field.lng_bounds "lng" (EmergencyIn.lng raw)
  ++ other_errors raw.

Definition validate (raw : EmergencyIn.t) : list FieldError + t :=
  match errors raw, EmergencyIn.lat raw, EmergencyIn.lng raw,
        EmergencyIn.description raw with
  | [], Some la, Some lo, Some d =>
      inr {| reporter_id := EmergencyIn.reporter_id raw;
             lat := la;
             lng := lo;
             description := d;
             photo_url := EmergencyIn.photo_url raw;
             status := or_default "open" (EmergencyIn.status raw) |}
  | es, _, _, _ => inl es
  end.
End Validation.

#[global] Instance dump : BaseModel t := λ e,
  list_to_map
    [ ("reporter_id", opt_str (reporter_id e));
      ("lat", VFloat (lat e));
      ("lng", VFloat (lng e));
      ("description", VStr (description e));
      ("photo_url", opt_str (photo_url e));
      ("status", VStr (status e)) ].
End Emergency.

(** ** The document store *)

(** *** Regular expressions

    The store evaluates [$regex] conditions with a regular-expression
    engine. The fragment made of literal characters and the wildcard [.]
    is modelled concretely; every other pattern goes to the runtime's
    compiler. *)
Module Regex.

(** A literal is one character, with all of its bytes. *)
Inductive atom :=
| Lit (ch : string)
| AnyChar.

(** The characters with a special meaning in a pattern. *)
Definition metachars : list string :=
  ["\"; "^"; "$"; "."; "|"; "?"; "*"; "+"; "("; ")"; "["; "]"; "{"; "}"].

Definition is_meta (ch : string) : bool := existsb (String.eqb ch) metachars.

(** A pattern free of special characters: it can only match itself. *)
Definition plain (pat : string) : bool :=
  forallb (λ ch, negb (is_meta ch)) (chars pat).

(** [None]: the pattern is outside the fragment. *)
Fixpoint parse_chars (pat : list string) : option (list atom) :=
  match pat with
  | [] => Some []
  | ch :: rest =>
      if String.eqb ch "." then cons AnyChar <$> parse_chars rest
      else if is_meta ch then None
      else cons (Lit ch) <$> parse_chars rest
  end.

Definition parse (pat : string) : option (list atom) := parse_chars (chars pat).

Definition newline : string := String "010"%char "".

Section Engine.
Context `{Runtime}.

(** Under option [i] letters match regardless of case. *)
Definition char_matches (caseless : bool) (p c : string) : bool :=
  if caseless then same_letter p c else String.eqb p c.

(** The atoms match the first characters of the subject. [.] takes one
    character other than a newline. *)
Fixpoint match_here (caseless : bool) (atoms : list atom) (s : list string) : bool :=
  match atoms, s with
  | [], _ => true
  | _ :: _, [] => false
  | Lit p :: atoms', c :: s' =>
      char_matches caseless p c && match_here caseless atoms' s'
  | AnyChar :: atoms', c :: s' =>
      negb (String.eqb c newline) && match_here caseless atoms' s'
  end.

(** An unanchored pattern matches anywhere in the subject. *)
Fixpoint search (caseless : bool) (atoms : list atom) (s : list string) : bool :=
  match_here caseless atoms s
  || match s with
     | _ :: s' => search caseless atoms s'
     | [] => false
     end.

Definition compile (pattern options : string) : option (string → bool) :=
  match parse pattern with
  | Some atoms =>
      if String.eqb options "i" then Some (λ s, search true atoms (chars s))
      else if String.eqb options "" then Some (λ s, search false atoms (chars s))
      else pcre_compile pattern options
  | None => pcre_compile pattern options
  end.

End Engine.
End Regex.

(** *** Query filters

    A filter is the dict handed to the store: all of its entries must
    hold. An entry constrains one field, or is an [$or] of such
    constraints. *)
Inductive cond :=
| Equals (v : string)                   (* {k: v} *)
| Regex (pattern options : string)      (* {k: {"$regex": p, "$options": o}} *)
| Between (gte lte : float).            (* {k: {"$gte": lo, "$lte": hi}} *)

Inductive clause :=
| Where (key : string) (c : cond)
| OrOf (alternatives : list (string * cond)).

Definition filter : Type := list clause.

Definition of_comparison (c : comparison) : float_comparison :=
  match c with Eq => FEq | Lt => FLt | Gt => FGt end.

(** An integer against a double, exactly. *)
Definition Z_compare_float (n : Z) (x : float) : float_comparison :=
  match Prim2SF x with
  | S754_nan => FNotComparable
  | S754_zero _ => of_comparison (Z.compare n 0)
  | S754_infinity s => if s then FGt else FLt
  | S754_finite s m e =>
      let v := if s then Z.neg m else Z.pos m in
      of_comparison
        (if (0 <=? e)%Z then Z.compare n (v * 2 ^ e) else Z.compare (n * 2 ^ (- e)) v)
  end.

(** A stored value against a numeric bound. NaN equals NaN and compares
    with nothing else; values that are not numbers do not compare. *)
Definition compare_number (v : value) (bound : float) : float_comparison :=
  match v with
  | VFloat x =>
      if PyFloat.is_nan x && PyFloat.is_nan bound then FEq else PrimFloat.compare x bound
  | VInt n => Z_compare_float n bound
  | _ => FNotComparable
  end.

Definition num_gte (v : value) (bound : float) : bool :=
  match compare_number v bound with FEq | FGt => true | _ => false end.
Definition num_lte (v : value) (bound : float) : bool :=
  match compare_number v bound with FEq | FLt => true | _ => false end.

Section Matching.
Context `{Runtime}.

Definition cond_pred (c : cond) : option (value → bool) :=
  match c with
  | Equals s =>
      Some (λ v, match v with VStr s' => String.eqb s' s | _ => false end)
  | Regex p o =>
      m ← Regex.compile p o;
      Some (λ v, match v with VStr s => m s | _ => false end)
  | Between lo hi =>
      Some (λ v, num_gte v lo && num_lte v hi)
  end.

Definition field_pred (kc : string * cond) : option (doc → bool) :=
  p ← cond_pred kc.2;
  Some (λ d : doc, match d !! kc.1 with Some v => p v | None => false end).

Definition clause_pred (cl : clause) : option (doc → bool) :=
  match cl with
  | Where k c => field_pred (k, c)
  | OrOf alts =>
      ps ← mapM field_pred alts;
      Some (λ d, existsb (λ p : doc → bool, p d) ps)
  end.

(** [None]: the store rejects the filter. *)
Definition filter_pred (f : filter) : option (doc → bool) :=
  ps ← mapM clause_pred f;
  Some (λ d, forallb (λ p : doc → bool, p d) ps).

End Matching.

(** *** The access layer ([database.py]) *)

(** The connection, when there is one: the collections, the next
    identifier to assign, and the lower-level error that every operation
    currently meets, if any. *)
Record Store := {
  collections : gmap string (list doc);
  next_id : N;
  fault : option string;
}.

(** [db] is [None] when no connection was established. *)
Definition DB : Type := option Store.

Definition docs_of (store : Store) (name : string) : list doc :=
  default [] (collections store !! name).

(** Handlers run against the connection and may fail. *)
Definition M (A : Type) : Type := DB → result A * DB.

#[export] Instance M_ret : MRet M := λ A a db, (Ok a, db).

#[export] Instance M_bind : MBind M := λ A B f m db,
  match m db with
  | (Ok a, db') => f a db'
  | (Err e, db') => (Err e, db')
  end.

Definition raise {A} (e : error) : M A := λ db, (Err e, db).

Section Access.
Context `{Runtime}.

(** Modelled from the spec: [create_document] of [database.py], absent
    from the sources. It persists the record as one new document and
    returns the store-assigned identifier as a string; it fails with
    [StoreUnavailable] without a connection and with [WriteFailure] on a
    lower-level error. *)
Definition create_document {A} `{BaseModel A} (collection_name : string) (data : A)
  : M string :=
  λ db,
    match db with
    | None => (Err StoreUnavailable, db)
    | Some store =>
        match fault store with
        | Some msg => (Err (WriteFailure msg), db)
        | None =>
            let oid := VObjectId (next_id store) in
            let d : doc := <["_id" := oid]> (model_dump data) in
            (Ok (py_str oid),
             Some {| collections :=
                       <[collection_name := (docs_of store collection_name ++ [d])%list]>
                         (collections store);
                     next_id := N.succ (next_id store);
                     fault := None |})
        end
    end.

(** Modelled from the spec: [get_documents] of [database.py], absent
    from the sources. It retrieves up to [limit] documents matching the
    filter, in the store's order; it fails with [StoreUnavailable]
    without a connection and with [QueryFailure] when the store rejects
    the operation. *)
Definition get_documents (collection_name : string) (filt : filter) (limit : Z)
  : M (list doc) :=
  λ db,
    match db with
    | None => (Err StoreUnavailable, db)
    | Some store =>
        match fault store with
        | Some msg => (Err (QueryFailure msg), db)
        | None =>
            match filter_pred filt with
            | None => (Err (QueryFailure "invalid filter"), db)
            | Some p =>
                (Ok (take (Z.to_nat limit) (List.filter p (docs_of store collection_name))),
                 db)
            end
        end
    end.

(** [db.list_collection_names()]: raises on a lower-level error. *)
Definition list_collection_names (store : Store) : string + list string :=
  match fault store with
  | Some msg => inl msg
  | None => inr ((map_to_list (collections store)).*1)
  end.

End Access.

(** ** Helpers ([main.py]) *)

(** [model_cls.__name__] *)
Definition __name__ (model_cls : Model) : string :=
  match model_cls with
  | User => "User"
  | Cat => "Cat"
  | Sighting => "Sighting"
  | Place => "Place"
  | Post => "Post"
  | Emergency => "Emergency"
  | Report => "Report"
  | Badge => "Badge"
  | Article => "Article"
  end.

Definition collection_name (model_cls : Model) : string :=
  lower (__name__ model_cls).

Section Helpers.
Context `{Runtime}.

(** An empty dict is returned as it is; otherwise ["_id"], when present,
    is popped and its [str] stored under ["id"]. *)
Definition to_public (d : doc) : doc :=
  if (size d =? 0)%nat then d
  else
    match d !! "_id" with
    | Some v => <["id" := VStr (py_str v)]> (delete "_id" d)
    | None => d
    end.

(** [Query(default, ge=lo, le=hi)] on the integer parameter [limit]. *)
Definition Query (dflt lo hi : Z) (v : option Z) : M Z :=
  match v with
  | None => mret dflt
  | Some x =>
      if (lo <=? x)%Z && (x <=? hi)%Z then mret x
      else raise (ValidationError [("limit", "out_of_range")])
  end.

(** A request body that fails its schema is rejected before the handler
    runs. *)
Definition request_body {A} (v : list FieldError + A) : M A :=
  match v with
  | inr a => mret a
  | inl es => raise (ValidationError es)
  end.

(** A model built by the handler itself raises when it is invalid. *)
Definition construct {A} (v : list FieldError + A) : M A :=
  match v with
  | inr a => mret a
  | inl es => raise (ModelError es)
  end.

End Helpers.

(** ** Health *)

Module Resp.
Record t := mk {
  backend : string;
  database : string;
  database_url : string;
  database_name : string;
  connection_status : string;
  collections : list string;
}.

Definition set_database (v : string) (r : t) : t :=
  mk (backend r) v (database_url r) (database_name r) (connection_status r) (collections r).
Definition set_database_url (v : string) (r : t) : t :=
  mk (backend r) (database r) v (database_name r) (connection_status r) (collections r).
Definition set_database_name (v : string) (r : t) : t :=
  mk (backend r) (database r) (database_url r) v (connection_status r) (collections r).
Definition set_connection_status (v : string) (r : t) : t :=
  mk (backend r) (database r) (database_url r) (database_name r) v (collections r).
Definition set_collections (v : list string) (r : t) : t :=
  mk (backend r) (database r) (database_url r) (database_name r) (connection_status r) v.
End Resp.

(** A Python block working on the dict [resp]: it returns or raises (the
    exception is kept as its message), and what it wrote to [resp] before
    raising stays written. *)
Inductive outcome (A : Type) :=
| Returned (a : A)
| Raised (e : string).
Arguments Returned {A} a.
Arguments Raised {A} e.

Definition block : Type := Resp.t → outcome unit * Resp.t.

(** [try: body except Exception as e: handler] *)
Definition try_except (body : block) (handler : string → block) : block :=
  λ resp,
    match body resp with
    | (Raised e, resp') => handler e resp'
    | done => done
    end.

(** The environment of the process, read by [os.getenv]. *)
Definition Env : Type := string → option string.

Definition test_database (db : DB) (getenv : Env) : outcome Resp.t :=
  let resp :=
    {| Resp.backend := "✅ Running";
       Resp.database := "❌ Not Available";
       Resp.database_url := "❌ Not Set";
       Resp.database_name := "❌ Not Set";
       Resp.connection_status := "Not Connected";
       Resp.collections := [] |} in
  let body : block :=
    try_except
      (λ resp,
         match db with
         | Some store =>
             let resp := Resp.set_database "✅ Available" resp in
             let resp :=
               Resp.set_database_url
                 (if truthy (getenv "DATABASE_URL") then "✅ Set" else "❌ Not Set") resp in
             let resp :=
               Resp.set_database_name
                 (let name := default "❌ Not Set" (getenv "DATABASE_NAME") in
                  if String.eqb name "" then "❌ Not Set" else name) resp in
             let resp := Resp.set_connection_status "Connected" resp in
             try_except
               (λ resp,
                  match list_collection_names store with
                  | inr names =>
                      (Returned (),
                       Resp.set_database "✅ Connected & Working"
                         (Resp.set_collections names resp))
                  | inl e => (Raised e, resp)
                  end)
               (λ e resp,
                  (Returned (),
                   Resp.set_database ("⚠️  Connected but Error: " ++ str_prefix 80 e) resp))
               resp
         | None => (Returned (), resp)
         end)
      (λ e resp,
         (Returned (), Resp.set_database ("❌ Error: " ++ str_prefix 80 e) resp)) in
  match body resp with
  | (Returned _, resp) => Returned resp
  | (Raised e, _) => Raised e
  end.

(** ** Auth (placeholder) *)

Module SignupPayloadIn.
(** [extra]: the keys of the body that the schema does not declare. *)
Record t := mk {
  email : option string;
  nickname : option string;
  avatar_url : option string;
  extra : doc;
}.
End SignupPayloadIn.

Module SignupPayload.
Record t := mk {
  email : string;
  nickname : string;
  avatar_url : option string;
}.

Definition errors (raw : SignupPayloadIn.t) : list FieldError :=
  Field.required "email" (SignupPayloadIn.email raw)
  ++ Field.required "nickname" (SignupPayloadIn.nickname raw).

Definition validate (raw : SignupPayloadIn.t) : list FieldError + t :=
  match errors raw, SignupPayloadIn.email raw, SignupPayloadIn.nickname raw with
  | [], Some e, Some n =>
      inr {| email := e; nickname := n; avatar_url := SignupPayloadIn.avatar_url raw |}
  | es, _, _ => inl es
  end.
End SignupPayload.

Section Handlers.
Context `{Runtime}.

Definition signup (body : SignupPayloadIn.t) : M doc :=
  payload ← request_body (SignupPayload.validate body);
  data ← construct
    (User.validate
       {| UserIn.email := Some (SignupPayload.email payload);
          UserIn.nickname := Some (SignupPayload.nickname payload);
          UserIn.avatar_url := SignupPayload.avatar_url payload;
          UserIn.bio := None;
          UserIn.role := Given "user";
          UserIn.points := Given 0;
          UserIn.badges := Given [];
          UserIn.is_active := Given true |});
  uid ← create_document (collection_name User) data;
  mret ({[ "id" := VStr uid ]} : doc).

(** ** Map and content endpoints *)

Definition create_cat (body : CatIn.t) : M doc :=
  cat ← request_body (Cat.validate body);
  cid ← create_document (collection_name Cat) cat;
  mret ({[ "id" := VStr cid ]} : doc).

Definition list_cats (q : option string) (limit : option Z) : M (list doc) :=
  limit ← Query 50 1 200 limit;
  let filt : filter :=
    if truthy q then
      [ OrOf [ ("name", Regex (default "" q) "i");
               ("description", Regex (default "" q) "i") ] ]
    else [] in
  docs ← get_documents (collection_name Cat) filt limit;
  mret (to_public <$> docs).

Definition create_sighting (body : SightingIn.t) : M doc :=
  s ← request_body (Sighting.validate body);
  sid ← create_document (collection_name Sighting) s;
  mret ({[ "id" := VStr sid ]} : doc).

Definition list_sightings (ne_lat ne_lng sw_lat sw_lng : option float)
    (limit : option Z) (status : option string) : M (list doc) :=
  limit ← Query 100 1 500 limit;
  let filt : filter :=
    if truthy status then [ Where "status" (Equals (default "" status)) ] else [] in
  let filt : filter :=
    match ne_lat, ne_lng, sw_lat, sw_lng with
    | Some ne_lat, Some ne_lng, Some sw_lat, Some sw_lng =>
        (filt
         ++ [ Where "lat" (Between (PyFloat.min sw_lat ne_lat) (PyFloat.max sw_lat ne_lat));
              Where "lng" (Between (PyFloat.min sw_lng ne_lng) (PyFloat.max sw_lng ne_lng)) ])%list
    | _, _, _, _ => filt
    end in
  docs ← get_documents (collection_name Sighting) filt limit;
  mret (to_public <$> docs).

Definition create_place (body : PlaceIn.t) : M doc :=
  p ← request_body (Place.validate body);
  pid ← create_document (collection_name Place) p;
  mret ({[ "id" := VStr pid ]} : doc).

Definition list_places (category : option string) (limit : option Z) : M (list doc) :=
  limit ← Query 100 1 300 limit;
  let filt : filter :=
    if truthy category then [ Where "category" (Equals (default "" category)) ] else [] in
  docs ← get_documents (collection_name Place) filt limit;
  mret (to_public <$> docs).

Definition list_posts (limit : option Z) : M (list doc) :=
  limit ← Query 50 1 200 limit;
  docs ← get_documents (collection_name Post) [] limit;
  mret (to_public <$> docs).

Definition create_emergency (body : EmergencyIn.t) : M doc :=
  e ← request_body (Emergency.validate body);
  eid ← create_document (collection_name Emergency) e;
  mret ({[ "id" := VStr eid ]} : doc).

Definition list_emergencies (status : option string) (limit : option Z) : M (list doc) :=
  limit ← Query 50 1 200 limit;
  let filt : filter :=
    if truthy status then [ Where "status" (Equals (default "" status)) ] else [] in
  docs ← get_documents (collection_name Emergency) filt limit;
  mret (to_public <$> docs).

Definition list_badges (limit : option Z) : M (list doc) :=
  limit ← Query 100 1 500 limit;
  docs ← get_documents (collection_name Badge) [] limit;
  mret (to_public <$> docs).

Definition list_articles (limit : option Z) : M (list doc) :=
  limit ← Query 50 1 200 limit;
  docs ← get_documents (collection_name Article) [] limit;
  mret (to_public <$> docs).

End Handlers.

(** ** Requests, by kind *)

(** The list operations of the application. *)
Inductive ListRequest :=
| ListCats (q : option string) (limit : option Z)
| ListSightings (ne_lat ne_lng sw_lat sw_lng : option float)
    (limit : option Z) (status : option string)
| ListPlaces (category : option string) (limit : option Z)
| ListPosts (limit : option Z)
| ListEmergencies (status : option string) (limit : option Z)
| ListBadges (limit : option Z)
| ListArticles (limit : option Z).

(** The create operations on the resources that carry coordinates. *)
Inductive CreateRequest :=
| CreateCat (body : CatIn.t)
| CreateSighting (body : SightingIn.t)
| CreatePlace (body : PlaceIn.t)
| CreateEmergency (body : EmergencyIn.t).

Section Dispatch.
Context `{Runtime}.

Definition handle_list (r : ListRequest) : M (list doc) :=
  match r with
  | ListCats q limit => list_cats q limit
  | ListSightings ne_lat ne_lng sw_lat sw_lng limit status =>
      list_sightings ne_lat ne_lng sw_lat sw_lng limit status
  | ListPlaces category limit => list_places category limit
  | ListPosts limit => list_posts limit
  | ListEmergencies status limit => list_emergencies status limit
  | ListBadges limit => list_badges limit
  | ListArticles limit => list_articles limit
  end.

Definition handle_create (r : CreateRequest) : M doc :=
  match r with
  | CreateCat body => create_cat body
  | CreateSighting body => create_sighting body
  | CreatePlace body => create_place body
  | CreateEmergency body => create_emergency body
  end.

(** The constraints a payload violates on fields other than its
    coordinates. *)
Definition other_errors (r : CreateRequest) : list FieldError :=
  match r with
  | CreateCat body => Cat.other_errors body
  | CreateSighting body => Sighting.other_errors body
  | CreatePlace body => Place.other_errors body
  | CreateEmergency body => Emergency.other_errors body
  end.

End Dispatch.

(** The collection a list operation reads. *)
Definition source (r : ListRequest) : Model :=
  match r with
  | ListCats _ _ => Cat
  | ListSightings _ _ _ _ _ _ => Sighting
  | ListPlaces _ _ => Place
  | ListPosts _ => Post
  | ListEmergencies _ _ => Emergency
  | ListBadges _ => Badge
  | ListArticles _ => Article
  end.

(** The latitudes and longitudes a payload carries. *)
Definition latitudes (r : CreateRequest) : list float :=
  match r with
  | CreateCat body => option_list (CatIn.last_known_lat body)
  | CreateSighting body => option_list (SightingIn.lat body)
  | CreatePlace body => option_list (PlaceIn.lat body)
  | CreateEmergency body => option_list (EmergencyIn.lat body)
  end.

Definition longitudes (r : CreateRequest) : list float :=
  match r with
  | CreateCat body => option_list (CatIn.last_known_lng body)
  | CreateSighting body => option_list (SightingIn.lng body)
  | CreatePlace body => option_list (PlaceIn.lng body)
  | CreateEmergency body => option_list (EmergencyIn.lng body)
  end.

(** The coordinates that the schema requires are supplied: both of them
    on Sighting, Place and Emergency, none on Cat. *)
Definition coordinates_supplied (r : CreateRequest) : bool :=
  match r with
  | CreateCat _ => true
  | CreateSighting body =>
      bool_decide (is_Some (SightingIn.lat body)) && bool_decide (is_Some (SightingIn.lng body))
  | CreatePlace body =>
      bool_decide (is_Some (PlaceIn.lat body)) && bool_decide (is_Some (PlaceIn.lng body))
  | CreateEmergency body =>
      bool_decide (is_Some (EmergencyIn.lat body))
      && bool_decide (is_Some (EmergencyIn.lng body))
  end.

(** ** Notions of the specification *)

(** A latitude in [-90, 90], a longitude in [-180, 180]. *)
Definition lat_in_range (x : float) : bool :=
  PyFloat.le (-90)%float x && PyFloat.le x 90%float.
Definition lng_in_range (x : float) : bool :=
  PyFloat.le (-180)%float x && PyFloat.le x 180%float.

Section Containment.
Context `{Runtime}.

(** Two runs of characters that read the same, letter case apart. *)
Definition same_text (q mid : list string) : Prop :=
  Forall2 (λ a b, same_letter a b = true) q mid.

(** [q] occurs in [s] as a run of consecutive characters, letter case
    apart. *)
Definition occurs_ci (q s : string) : Prop :=
  ∃ pre mid post, chars s = (pre ++ mid ++ post)%list ∧ same_text (chars q) mid.

(** [q] occurs in the text stored under [key]. *)
Definition field_contains (q : string) (key : string) (d : doc) : Prop :=
  ∃ s, d !! key = Some (VStr s) ∧ occurs_ci q s.

End Containment.

(** Every stored document carries the identifier the store assigned. *)
Definition has_id (d : doc) : Prop :=
  ∃ oid, d !! "_id" = Some (VObjectId oid).

Definition identified (store : Store) : Prop :=
  ∀ name d, d ∈ docs_of store name → has_id d.

(** A store that is connected and meets no lower-level error. *)
Definition operational (db : DB) : Prop :=
  ∃ store, db = Some store ∧ fault store = None.

(** ** Sample data *)

Module Sample.

(** A runtime to run the handlers with. *)
Definition runtime : Runtime :=
  {| py_str := λ v, match v with
                    | VObjectId oid => pretty oid
                    | VStr s => s
                    | _ => ""
                    end;
     is_http_url := λ s, String.prefix "http" s;
     pcre_compile := λ _ _, None;
     unicode_same_letter := String.eqb |}.

(** The same runtime with an engine that knows the two cases of e with
    an acute accent. *)
Definition accents : Runtime :=
  {| py_str := py_str (Runtime := runtime);
     is_http_url := is_http_url (Runtime := runtime);
     pcre_compile := pcre_compile (Runtime := runtime);
     unicode_same_letter := λ p c,
       String.eqb p c
       || (String.eqb p "É" || String.eqb p "é") && (String.eqb c "É" || String.eqb c "é") |}.

Definition empty_store : Store :=
  {| collections := ∅; next_id := 0; fault := None |}.

(** A cat called Tom, one described as a friendly tabby, and one about
    which nothing is known. *)
Definition tom : doc :=
  <["_id" := VObjectId 0]>
    (model_dump (Cat.mk (Some "Tom") None None None "unknown" None None)).
Definition tabby : doc :=
  <["_id" := VObjectId 1]>
    (model_dump (Cat.mk None (Some "Friendly tabby") None None "unknown" None None)).
Definition stray : doc :=
  <["_id" := VObjectId 2]>
    (model_dump (Cat.mk None None None None "unknown" None None)).

(** A cat with an accent in its description. *)
Definition gourmet : doc :=
  <["_id" := VObjectId 2]>
    (model_dump (Cat.mk None (Some "Loves an éclair") None None "unknown" None None)).

Definition cats (l : list doc) : Store :=
  {| collections := {[ "cat" := l ]}; next_id := 3; fault := None |}.

(** A sighting at latitude 5, longitude 5. *)
Definition spotted : doc :=
  <["_id" := VObjectId 0]>
    (model_dump (Sighting.mk None 5%float 5%float None None "normal" None None)).

Definition sightings : Store :=
  {| collections := {[ "sighting" := [spotted] ]}; next_id := 1; fault := None |}.

Definition broken_store : Store :=
  {| collections := ∅; next_id := 0; fault := Some "connection reset" |}.

Definition getenv : Env :=
  λ k, if String.eqb k "DATABASE_NAME" then Some "catadvisor" else None.

(** Two sighting payloads: one at latitude 91, one on the map. *)
Definition off_the_map : SightingIn.t :=
  SightingIn.mk None (Some 91%float) (Some 12.5%float) None None Omitted None None.
Definition on_the_map : SightingIn.t :=
  SightingIn.mk None (Some 45.5%float) (Some 12.5%float) (Some "by the bins") None
    (Given "urgent") None None.

(** A signup body that also tries to set the role and the points. *)
Definition pushy_signup : SignupPayloadIn.t :=
  SignupPayloadIn.mk (Some "ada@example.org") (Some "ada") None
    (<["role" := VStr "admin"]> (<["points" := VInt 9000]> ∅)).

End Sample.

(** ** The other schemas and their create handlers *)

Module PostIn.
Record t := mk {
  author_id : option string;
  text : option string;
  photo_url : option string;
  tags : supplied (list string);
  lat : option float;
  lng : option float;
  miao_count : supplied Z;
}.
End PostIn.

Module Post.
Record t := mk {
  author_id : option string;
  text : string;
  photo_url : option string;
  tags : list string;
  lat : option float;
  lng : option float;
  miao_count : Z;
}.

Section Validation.
Context `{Runtime}.

Definition errors (raw : PostIn.t) : list FieldError :=
  Field.required "text" (PostIn.text raw)
  ++ Field.max_length "text" 1000 (PostIn.text raw)
  ++ Field.http_url "photo_url" (PostIn.photo_url raw)
  ++ Field.not_null "tags" (PostIn.tags raw)
  ++ Field.lat_bounds "lat" (PostIn.lat raw)
  ++ Field.lng_bounds "lng" (PostIn.lng raw)
  ++ Field.not_null "miao_count" (PostIn.miao_count raw).

Definition validate (raw : PostIn.t) : list FieldError + t :=
  match errors raw, PostIn.text raw with
  | [], Some txt =>
      inr {| author_id := PostIn.author_id raw;
             text := txt;
             photo_url := PostIn.photo_url raw;
             tags := or_default [] (PostIn.tags raw);
             lat := PostIn.lat raw;
             lng := PostIn.lng raw;
             miao_count := or_default 0 (PostIn.miao_count raw) |}
  | es, _ => inl es
  end.
End Validation.

#[global] Instance dump : BaseModel t := λ p,
  list_to_map
    [ ("author_id", opt_str (author_id p));
      ("text", VStr (text p));
      ("photo_url", opt_str (photo_url p));
      ("tags", VList (tags p));
      ("lat", opt_float (lat p));
      ("lng", opt_float (lng p));
      ("miao_count", VInt (miao_count p)) ].
End Post.

Module ReportIn.
Record t := mk {
  reporter_id : option string;
  target_type : option string;
  target_id : option string;
  reason : option string;
  note : option string;
}.
End ReportIn.

Module Report.
Record t := mk {
  reporter_id : option string;
  target_type : string;
  target_id : string;
  reason : string;
  note : option string;
}.

Definition target_types : list string := ["post"; "cat"; "place"; "sighting"].
Definition reasons : list string := ["spam"; "offensive"; "duplicate"; "privacy"; "other"].

Definition errors (raw : ReportIn.t) : list FieldError :=
  Field.required "target_type" (ReportIn.target_type raw)
  ++ Field.literal "target_type" target_types (ReportIn.target_type raw)
  ++ Field.required "target_id" (ReportIn.target_id raw)
  ++ Field.required "reason" (ReportIn.reason raw)
  ++ Field.literal "reason" reasons (ReportIn.reason raw)
  ++ Field.max_length "note" 300 (ReportIn.note raw).

Definition validate (raw : ReportIn.t) : list FieldError + t :=
  match errors raw, ReportIn.target_type raw, ReportIn.target_id raw,
        ReportIn.reason raw with
  | [], Some ty, Some id, Some why =>
      inr {| reporter_id := ReportIn.reporter_id raw;
             target_type := ty;
             target_id := id;
             reason := why;
             note := ReportIn.note raw |}
  | es, _, _, _ => inl es
  end.

#[global] Instance dump : BaseModel t := λ r,
  list_to_map
    [ ("reporter_id", opt_str (reporter_id r));
      ("target_type", VStr (target_type r));
      ("target_id", VStr (target_id r));
      ("reason", VStr (reason r));
      ("note", opt_str (note r)) ].
End Report.

Module BadgeIn.
Record t := mk {
  code : option string;
  label : option string;
  description : option string;
  icon : option string;
}.
End BadgeIn.

Module Badge.
Record t := mk {
  code : string;
  label : string;
  description : option string;
  icon : option string;
}.

Definition errors (raw : BadgeIn.t) : list FieldError :=
  Field.required "code" (BadgeIn.code raw)
  ++ Field.required "label" (BadgeIn.label raw).

Definition validate (raw : BadgeIn.t) : list FieldError + t :=
  match errors raw, BadgeIn.code raw, BadgeIn.label raw with
  | [], Some c, Some l =>
      inr {| code := c;
             label := l;
             description := BadgeIn.description raw;
             icon := BadgeIn.icon raw |}
  | es, _, _ => inl es
  end.

#[global] Instance dump : BaseModel t := λ b,
  list_to_map
    [ ("code", VStr (code b));
      ("label", VStr (label b));
      ("description", opt_str (description b));
      ("icon", opt_str (icon b)) ].
End Badge.

Module ArticleIn.
Record t := mk {
  title : option string;
  body : option string;
  cover_url : option string;
  author : option string;
  tags : supplied (list string);
}.
End ArticleIn.

Module Article.
Record t := mk {
  title : string;
  body : string;
  cover_url : option string;
  author : option string;
  tags : list string;
}.

Section Validation.
Context `{Runtime}.

Definition errors (raw : ArticleIn.t) : list FieldError :=
  Field.required "title" (ArticleIn.title raw)
  ++ Field.required "body" (ArticleIn.body raw)
  ++ Field.http_url "cover_url" (ArticleIn.cover_url raw)
  ++ Field.not_null "tags" (ArticleIn.tags raw).

Definition validate (raw : ArticleIn.t) : list FieldError + t :=
  match errors raw, ArticleIn.title raw, ArticleIn.body raw with
  | [], Some ti, Some bo =>
      inr {| title := ti;
             body := bo;
             cover_url := ArticleIn.cover_url raw;
             author := ArticleIn.author raw;
             tags := or_default [] (ArticleIn.tags raw) |}
  | es, _, _ => inl es
  end.
End Validation.

#[global] Instance dump : BaseModel t := λ a,
  list_to_map
    [ ("title", VStr (title a));
      ("body", VStr (body a));
      ("cover_url", opt_str (cover_url a));
      ("author", opt_str (author a));
      ("tags", VList (tags a)) ].
End Article.

Section MoreHandlers.
Context `{Runtime}.

Definition root : doc :=
  list_to_map [ ("name", VStr "CatAdvisor API"); ("status", VStr "ok") ].

Definition create_post (body : PostIn.t) : M doc :=
  p ← request_body (Post.validate body);
  pid ← create_document (collection_name Post) p;
  mret ({[ "id" := VStr pid ]} : doc).

Definition create_report (body : ReportIn.t) : M doc :=
  r ← request_body (Report.validate body);
  rid ← create_document (collection_name Report) r;
  mret ({[ "id" := VStr rid ]} : doc).

Definition create_badge (body : BadgeIn.t) : M doc :=
  b ← request_body (Badge.validate body);
  bid ← create_document (collection_name Badge) b;
  mret ({[ "id" := VStr bid ]} : doc).

Definition create_article (body : ArticleIn.t) : M doc :=
  a ← request_body (Article.validate body);
  aid ← create_document (collection_name Article) a;
  mret ({[ "id" := VStr aid ]} : doc).

End MoreHandlers.

(** ** Parameters of the requests *)

(** The bounds that each list operation declares for [limit]. *)
Definition default_limit (r : ListRequest) : Z :=
  match r with
  | ListCats _ _ | ListPosts _ | ListEmergencies _ _ | ListArticles _ => 50
  | ListSightings _ _ _ _ _ _ | ListPlaces _ _ | ListBadges _ => 100
  end.

Definition max_limit (r : ListRequest) : Z :=
  match r with
  | ListCats _ _ | ListPosts _ | ListEmergencies _ _ | ListArticles _ => 200
  | ListPlaces _ _ => 300
  | ListSightings _ _ _ _ _ _ | ListBadges _ => 500
  end.

(** The [limit] a list request carries. *)
Definition limit_of (r : ListRequest) : option Z :=
  match r with
  | ListCats _ limit | ListSightings _ _ _ _ limit _ | ListPlaces _ limit
  | ListPosts limit | ListEmergencies _ limit | ListBadges limit
  | ListArticles limit => limit
  end.

(** The value a payload gives to its enumerated field, and the values
    its schema allows. *)
Definition enum_field (r : CreateRequest) : option string :=
  match r with
  | CreateCat body => given (CatIn.status body)
  | CreateSighting body => given (SightingIn.status body)
  | CreatePlace body => PlaceIn.category body
  | CreateEmergency body => given (EmergencyIn.status body)
  end.

Definition enum_values (r : CreateRequest) : list string :=
  match r with
  | CreateCat _ => Cat.statuses
  | CreateSighting _ => Sighting.statuses
  | CreatePlace _ => Place.categories
  | CreateEmergency _ => Emergency.statuses
  end.

(** The length-bounded text of a payload, with its bound. *)
Definition bounded_text (r : CreateRequest) : option string * nat :=
  match r with
  | CreateCat body => (CatIn.description body, 500%nat)
  | CreateSighting body => (SightingIn.note body, 400%nat)
  | CreatePlace body => (PlaceIn.description body, 600%nat)
  | CreateEmergency body => (EmergencyIn.description body, 500%nat)
  end.

(** The resource a create request is about. *)
Definition resource (r : CreateRequest) : Model :=
  match r with
  | CreateCat _ => Cat
  | CreateSighting _ => Sighting
  | CreatePlace _ => Place
  | CreateEmergency _ => Emergency
  end.

(** The text of the field [key] of a document equals [s]. *)
Definition field_is (key s : string) (d : doc) : bool :=
  match d !! key with
  | Some (VStr s') => String.eqb s' s
  | _ => false
  end.

(** The equality filter a list request asks for: the field and the
    value. *)
Definition equality_filter (r : ListRequest) : option (string * string) :=
  match r with
  | ListSightings _ _ _ _ _ status | ListEmergencies status _ => pair "status" <$> status
  | ListPlaces category _ => pair "category" <$> category
  | _ => None
  end.

(** The request gives no corner of a bounding box. *)
Definition no_corner (r : ListRequest) : bool :=
  match r with
  | ListSightings None None None None _ _ => true
  | ListSightings _ _ _ _ _ _ => false
  | _ => true
  end.

(** The name of the enumerated field, and its default when it has one. *)
Definition enum_key (r : CreateRequest) : string :=
  match r with
  | CreatePlace _ => "category"
  | _ => "status"
  end.

Definition enum_default (r : CreateRequest) : option string :=
  match r with
  | CreateCat _ => Some "unknown"
  | CreateSighting _ => Some "normal"
  | CreatePlace _ => None
  | CreateEmergency _ => Some "open"
  end.

(** The field with a default to which the payload gives null, if any. *)
Definition nulled_field (r : CreateRequest) : option string :=
  match r with
  | CreateCat body =>
      match CatIn.status body with Null => Some "status" | _ => None end
  | CreateSighting body =>
      match SightingIn.status body with Null => Some "status" | _ => None end
  | CreatePlace body =>
      match PlaceIn.rating_count body with Null => Some "rating_count" | _ => None end
  | CreateEmergency body =>
      match EmergencyIn.status body with Null => Some "status" | _ => None end
  end.

(** The name of the length-bounded text field. *)
Definition text_key (r : CreateRequest) : string :=
  match r with
  | CreateSighting _ => "note"
  | _ => "description"
  end.

(** A field that the schema requires has no value in the payload. *)
Definition missing_required (r : CreateRequest) : bool :=
  match r with
  | CreateCat _ => false
  | CreateSighting body =>
      negb (bool_decide (is_Some (SightingIn.lat body)))
      || negb (bool_decide (is_Some (SightingIn.lng body)))
  | CreatePlace body =>
      negb (bool_decide (is_Some (PlaceIn.name body)))
      || negb (bool_decide (is_Some (PlaceIn.category body)))
      || negb (bool_decide (is_Some (PlaceIn.lat body)))
      || negb (bool_decide (is_Some (PlaceIn.lng body)))
  | CreateEmergency body =>
      negb (bool_decide (is_Some (EmergencyIn.lat body)))
      || negb (bool_decide (is_Some (EmergencyIn.lng body)))
      || negb (bool_decide (is_Some (EmergencyIn.description body)))
  end.

(** ** All the write operations *)

Inductive WriteRequest :=
| Signup (body : SignupPayloadIn.t)
| Create (r : CreateRequest)
| CreatePost (body : PostIn.t)
| CreateReport (body : ReportIn.t)
| CreateBadge (body : BadgeIn.t)
| CreateArticle (body : ArticleIn.t).

Section Writes.
Context `{Runtime}.

Definition handle_write (w : WriteRequest) : M doc :=
  match w with
  | Signup body => signup body
  | Create r => handle_create r
  | CreatePost body => create_post body
  | CreateReport body => create_report body
  | CreateBadge body => create_badge body
  | CreateArticle body => create_article body
  end.

End Writes.

(** Every stored document carries its identifier under ["_id"] and has
    no field called ["id"]. *)
Definition well_kept (store : Store) : Prop :=
  ∀ name d, d ∈ docs_of store name → has_id d ∧ d !! "id" = None.

Section History.
Context `{Runtime}.

(** The connection after a sequence of write requests, whatever their
    outcomes. *)
Fixpoint run_writes (ws : list WriteRequest) (db : DB) : DB :=
  match ws with
  | [] => db
  | w :: ws' => run_writes ws' (handle_write w db).2
  end.

End History.

(** ** More sample data *)

Module Fixture.

(** A place filed under a category that does not exist. *)
Definition zoo : PlaceIn.t :=
  PlaceIn.mk (Some "Cat zoo") (Some "zoo") None (Some 45.5%float) (Some 12.5%float)
    None None None None None Omitted.

(** A cafe rated 7 out of 5. *)
Definition overrated : PlaceIn.t :=
  PlaceIn.mk (Some "Neko") (Some "cat_cafe") None (Some 45.5%float) (Some 12.5%float)
    None None None None (Some 7%float) Omitted.

(** A sighting whose note has 401 characters. *)
Definition wordy : SightingIn.t :=
  SightingIn.mk None (Some 45.5%float) (Some 12.5%float)
    (Some (string_of_list_ascii (repeat "a"%char 401))) None Omitted None None.

(** An emergency without a description. *)
Definition mute : EmergencyIn.t :=
  EmergencyIn.mk None (Some 45.5%float) (Some 12.5%float) None None Omitted.

(** A sighting on the map whose status is null. *)
Definition undecided : SightingIn.t :=
  SightingIn.mk None (Some 45.5%float) (Some 12.5%float) None None Null None None.

(** A sighting whose note has 400 characters, of two bytes each. *)
Definition accented : SightingIn.t :=
  SightingIn.mk None (Some 45.5%float) (Some 12.5%float)
    (Some (String.concat "" (repeat "é" 400))) None Omitted None None.

(** A cat about which the payload says nothing. *)
Definition nameless : CatIn.t := CatIn.mk None None None None Omitted None None.

End Fixture.

(** ** Notions used in the proofs *)

Section Shapes.
Context `{Runtime}.

(** The shape shared by the list handlers: validate [limit], query, make
    the records public. *)
Definition listing (dflt lo hi : Z) (c : string) (f : filter) (limit : option Z)
  : M (list doc) :=
  limit ← Query dflt lo hi limit;
  docs ← get_documents c f limit;
  mret (to_public <$> docs).

(** What the schema of a create request finds wrong with its payload. *)
Definition request_errors (r : CreateRequest) : list FieldError :=
  match r with
  | CreateCat body => Cat.errors body
  | CreateSighting body => Sighting.errors body
  | CreatePlace body => Place.errors body
  | CreateEmergency body => Emergency.errors body
  end.

End Shapes.

(** Two characters that are the same, or the two cases of one ASCII
    letter. *)
Definition case_variant (p p' : string) : bool :=
  String.eqb p p'
  || match ascii_char p, ascii_char p' with
     | Some a, Some b => Ascii.eqb (ascii_lower a) (ascii_lower b)
     | _, _ => false
     end.

(** A string made of continuation bytes only. *)
Fixpoint all_continuation (s : string) : bool :=
  match s with
  | EmptyString => true
  | String c s' => is_continuation c && all_continuation s'
  end.

(** One character: a byte and the bytes that continue it. *)
Definition is_char (g : string) : bool :=
  match g with
  | String _ r => all_continuation r
  | EmptyString => false
  end.

(** Two bounds that no stored value tells apart. *)
Definition same_bound (a b : float) : Prop :=
  ∀ v, compare_number v a = compare_number v b.

(** The atoms of a pattern in which every character stands for itself. *)
Definition literals (q : string) : list Regex.atom :=
  Regex.Lit <$> chars q.

(** The test the store applies to one field for the pattern [q]. *)
Definition field_matches `{Runtime} (q key : string) (d : doc) : bool :=
  match d !! key with
  | Some (VStr s) => Regex.search true (literals q) (chars s)
  | _ => false
  end.

(** The filter a list request hands to the store. *)
Definition query_filter (r : ListRequest) : filter :=
  match r with
  | ListCats q _ =>
      if truthy q then
        [ OrOf [ ("name", Regex (default "" q) "i");
                 ("description", Regex (default "" q) "i") ] ]
      else []
  | ListSightings ne_lat ne_lng sw_lat sw_lng _ status =>
      ((if truthy status then [ Where "status" (Equals (default "" status)) ] else [])
       ++ match ne_lat, ne_lng, sw_lat, sw_lng with
          | Some ne_lat, Some ne_lng, Some sw_lat, Some sw_lng =>
              [ Where "lat" (Between (PyFloat.min sw_lat ne_lat) (PyFloat.max sw_lat ne_lat));
                Where "lng" (Between (PyFloat.min sw_lng ne_lng) (PyFloat.max sw_lng ne_lng)) ]
          | _, _, _, _ => []
          end)%list
  | ListPlaces category _ =>
      if truthy category then [ Where "category" (Equals (default "" category)) ] else []
  | ListEmergencies status _ =>
      if truthy status then [ Where "status" (Equals (default "" status)) ] else []
  | ListPosts _ | ListBadges _ | ListArticles _ => []
  end.

(** * Properties *)

(** ** Running a handler *)

Ltac run := unfold mbind, M_bind, mret, M_ret, raise in *.

Section Running.
Context `{Runtime}.

Lemma Query_inv dflt lo hi v db r db' :
  Query dflt lo hi v db = (r, db') →
  db' = db
  ∧ match v with
    | None => r = Ok dflt
    | Some x =>
        if (lo <=? x)%Z && (x <=? hi)%Z then r = Ok x
        else r = Err (ValidationError [("limit", "out_of_range")])
    end.
Proof.
  unfold Query. destruct v as [x|].
  - destruct ((lo <=? x)%Z && (x <=? hi)%Z); run; intros [= <- <-]; auto.
  - run. intros [= <- <-]. auto.
Qed.

Lemma get_documents_inv c f n db ds db' :
  get_documents c f n db = (Ok ds, db') →
  db' = db
  ∧ ∃ store p,
      db = Some store ∧ fault store = None ∧ filter_pred f = Some p
      ∧ ds = take (Z.to_nat n) (List.filter p (docs_of store c)).
Proof.
  unfold get_documents. destruct db as [store|]; [|discriminate].
  destruct (fault store) eqn:Hfault; [discriminate|].
  destruct (filter_pred f) as [p|] eqn:Hp; [|discriminate].
  intros [= <- <-]. split; [done|]. by exists store, p.
Qed.

Lemma listing_inv dflt lo hi c f limit db rs db' :
  listing dflt lo hi c f limit db = (Ok rs, db') →
  db' = db
  ∧ ∃ n store p,
      db = Some store ∧ fault store = None ∧ filter_pred f = Some p
      ∧ (limit = None ∧ n = dflt ∨ limit = Some n ∧ (lo ≤ n ≤ hi)%Z)
      ∧ rs = to_public <$> take (Z.to_nat n) (List.filter p (docs_of store c)).
Proof.
  unfold listing. run.
  destruct (Query dflt lo hi limit db) as [r db1] eqn:HQ.
  apply Query_inv in HQ as [-> HQ].
  destruct r as [n|e]; [|discriminate].
  destruct (get_documents c f n db) as [r2 db2] eqn:HG.
  destruct r2 as [ds|e]; [|discriminate].
  apply get_documents_inv in HG as [-> (store & p & -> & Hfault & Hp & ->)].
  intros [= <-]. split; [done|].
  exists n, store, p. repeat split; try done.
  destruct limit as [x|].
  - right. destruct ((lo <=? x)%Z && (x <=? hi)%Z) eqn:Hr; [|discriminate].
    injection HQ as ->. split; [done|]. lia.
  - left. by injection HQ as ->.
Qed.

Lemma listing_rejects dflt lo hi c f x db :
  ¬ (lo ≤ x ≤ hi)%Z →
  listing dflt lo hi c f (Some x) db
  = (Err (ValidationError [("limit", "out_of_range")]), db).
Proof.
  intros Hx. unfold listing, Query. run.
  destruct ((lo <=? x)%Z && (x <=? hi)%Z) eqn:Hr; [lia|done].
Qed.

Lemma listing_runs dflt lo hi c f limit store p :
  fault store = None →
  filter_pred f = Some p →
  match limit with Some x => (lo ≤ x ≤ hi)%Z | None => True end →
  listing dflt lo hi c f limit (Some store)
  = (Ok (to_public <$>
           take (Z.to_nat (default dflt limit)) (List.filter p (docs_of store c))),
     Some store).
Proof.
  intros Hfault Hp Hx. unfold listing, Query, get_documents. run.
  destruct limit as [x|]; simpl.
  - destruct ((lo <=? x)%Z && (x <=? hi)%Z) eqn:Hr; [|lia].
    by rewrite Hfault, Hp.
  - by rewrite Hfault, Hp.
Qed.

End Running.

(** ** Collection names *)

(** C8: the collection name of a resource type is the lowercase form of
    its name, for each of the nine resource types, and the nine names
    are pairwise distinct. *)
Theorem collection_name_lowercase_injective :
  (∀ m, collection_name m = lower (__name__ m))
  ∧ collection_name <$> [User; Cat; Sighting; Place; Post; Emergency; Report; Badge; Article]
    = ["user"; "cat"; "sighting"; "place"; "post"; "emergency"; "report"; "badge";
       "article"]
  ∧ ∀ m1 m2, collection_name m1 = collection_name m2 → m1 = m2.
Proof.
  split; [done|]. split; [reflexivity|].
  intros m1 m2. destruct m1, m2; vm_compute; congruence.
Qed.

(** ** The diagnostic probe *)

(** C9: whatever the state of the store connection, the probe returns a
    response and does not raise; an error met while listing the
    collections ends up in the status string [database]. *)
Theorem test_database_never_raises (db : DB) (getenv : Env) :
  ∃ resp,
    test_database db getenv = Returned resp
    ∧ Resp.backend resp = "✅ Running"
    ∧ match db with
      | None =>
          Resp.database resp = "❌ Not Available"
          ∧ Resp.connection_status resp = "Not Connected"
          ∧ Resp.collections resp = []
      | Some store =>
          Resp.connection_status resp = "Connected"
          ∧ match list_collection_names store with
            | inl e =>
                Resp.database resp = "⚠️  Connected but Error: " ++ str_prefix 80 e
                ∧ Resp.collections resp = []
            | inr names =>
                Resp.database resp = "✅ Connected & Working"
                ∧ Resp.collections resp = names
            end
      end.
Proof.
  unfold test_database, try_except.
  destruct db as [store|].
  - destruct (list_collection_names store) as [e|names];
      eexists; (split; [reflexivity|]); simpl; auto.
  - eexists. split; [reflexivity|]. simpl. auto.
Qed.

(** ** Listing *)

Section Listing.
Context `{Runtime}.

Lemma list_cats_listing q limit :
  list_cats q limit
  = listing 50 1 200 "cat"
      (if truthy q then
         [ OrOf [ ("name", Regex (default "" q) "i");
                  ("description", Regex (default "" q) "i") ] ]
       else []) limit.
Proof. reflexivity. Qed.

(** C4: on the Cat list, [limit=0] and [limit=201] are rejected whatever
    the store (so before any query), [limit=1] and [limit=200] pass
    validation and succeed on an operational store, an omitted limit
    stands for 50, and a successful call returns at most [limit]
    records. *)
Theorem list_cats_limit (q : option string) (db : DB) :
  (∃ es, list_cats q (Some 0) db = (Err (ValidationError es), db))
  ∧ (∃ es, list_cats q (Some 201) db = (Err (ValidationError es), db))
  ∧ is_validation_error (list_cats q (Some 1) db).1 = false
  ∧ is_validation_error (list_cats q (Some 200) db).1 = false
  ∧ (operational db →
     ∃ rs1 rs200,
       list_cats None (Some 1) db = (Ok rs1, db)
       ∧ list_cats None (Some 200) db = (Ok rs200, db))
  ∧ list_cats q None db = list_cats q (Some 50) db
  ∧ ∀ limit rs db',
      list_cats q (Some limit) db = (Ok rs, db') →
      (1 ≤ limit ≤ 200)%Z ∧ (Z.of_nat (length rs) ≤ limit)%Z.
Proof.
  rewrite !(list_cats_listing q), !(list_cats_listing None).
  repeat split.
  - eexists. apply listing_rejects. lia.
  - eexists. apply listing_rejects. lia.
  - unfold listing, Query, get_documents. run. simpl.
    destruct db as [store|]; [|done].
    destruct (fault store); [done|]. by destruct (filter_pred _).
  - unfold listing, Query, get_documents. run. simpl.
    destruct db as [store|]; [|done].
    destruct (fault store); [done|]. by destruct (filter_pred _).
  - intros (store & -> & Hfault).
    do 2 eexists. split; (eapply listing_runs; [done|reflexivity|simpl; lia]).
  - apply listing_inv in H0 as [_ (n & store & p & _ & _ & _ & [[? _]|[[= <-] ?]] & _)];
      [done|lia].
  - apply listing_inv in H0 as [_ (n & store & p & _ & _ & _ & [[? _]|[[= <-] ?]] & ->)];
      [done|lia].
  - apply listing_inv in H0 as [_ (n & store & p & _ & _ & _ & [[? _]|[[= <-] ?]] & ->)];
      [done|].
    rewrite length_fmap, length_take. lia.
Qed.

(** C10: an optional filter parameter given as the empty string behaves
    as the parameter left out, on the four list operations that take
    one. *)
Theorem empty_filter_parameter_is_omitted
    (ne_lat ne_lng sw_lat sw_lng : option float) (limit : option Z) (db : DB) :
  list_cats (Some "") limit db = list_cats None limit db
  ∧ list_sightings ne_lat ne_lng sw_lat sw_lng limit (Some "") db
    = list_sightings ne_lat ne_lng sw_lat sw_lng limit None db
  ∧ list_emergencies (Some "") limit db = list_emergencies None limit db
  ∧ list_places (Some "") limit db = list_places None limit db.
Proof. repeat split; reflexivity. Qed.

(** C6, as the code has it: the bounding box applies only when all four
    corners are given; with any corner missing the request runs as if no
    corner had been given. *)
Theorem partial_bounding_box_is_ignored
    (ne_lat ne_lng sw_lat sw_lng : option float) (limit : option Z)
    (status : option string) (db : DB) :
  ne_lat = None ∨ ne_lng = None ∨ sw_lat = None ∨ sw_lng = None →
  list_sightings ne_lat ne_lng sw_lat sw_lng limit status db
  = list_sightings None None None None limit status db.
Proof.
  intros Hmissing. unfold list_sightings.
  destruct ne_lat, ne_lng, sw_lat, sw_lng; try reflexivity.
  destruct Hmissing as [?|[?|[?|?]]]; discriminate.
Qed.

End Listing.

Lemma partial_bounding_box_is_ignored_witness :
  list_sightings (H := Sample.runtime) (Some 10%float) None None None
    None None (Some Sample.sightings)
  = list_sightings (H := Sample.runtime) None None None None
      None None (Some Sample.sightings).
Proof.
  apply (partial_bounding_box_is_ignored (H := Sample.runtime)).
  right. left. reflexivity.
Defined.

(** C6, as stated, fails: a request giving only [ne_lat] is not rejected;
    it is run, and returns the stored sighting. *)
Lemma partial_bounding_box_not_rejected :
  ¬ (∀ (rt : Runtime) (db : DB) (ne_lat ne_lng sw_lat sw_lng : option float)
       (limit : option Z) (status : option string),
       ¬ (ne_lat = None ∧ ne_lng = None ∧ sw_lat = None ∧ sw_lng = None) →
       ¬ (is_Some ne_lat ∧ is_Some ne_lng ∧ is_Some sw_lat ∧ is_Some sw_lng) →
       ∃ es,
         list_sightings ne_lat ne_lng sw_lat sw_lng limit status db
         = (Err (ValidationError es), db)).
Proof.
  intros Hclaim.
  destruct (Hclaim Sample.runtime (Some Sample.sightings)
              (Some 10%float) None None None None None) as [es Hes].
  - intros (? & _). discriminate.
  - intros (_ & [? ?] & _). discriminate.
  - vm_compute in Hes. discriminate.
Qed.

(** ** Validation of coordinates *)

Section Coordinates.
Context `{Runtime}.

Lemma lat_bounds_nil field x :
  Field.lat_bounds field (Some x) = [] ↔ lat_in_range x = true.
Proof.
  unfold Field.lat_bounds, Field.ge, Field.le, lat_in_range.
  destruct (PyFloat.le (-90)%float x), (PyFloat.le x 90%float); simpl; split; congruence.
Qed.

Lemma lng_bounds_nil field y :
  Field.lng_bounds field (Some y) = [] ↔ lng_in_range y = true.
Proof.
  unfold Field.lng_bounds, Field.ge, Field.le, lng_in_range.
  destruct (PyFloat.le (-180)%float y), (PyFloat.le y 180%float); simpl; split; congruence.
Qed.

Lemma required_nil {A} field (v : option A) :
  Field.required field v = [] ↔ is_Some v.
Proof.
  destruct v; simpl; split; try done; try by eexists.
  all: by intros [? ?].
Qed.

(** The errors of a schema are empty exactly when each group is. *)
Ltac split_errors :=
  repeat match goal with
    | H : (_ ++ _)%list = [] |- _ => apply app_eq_nil in H as [? ?]
    end.

Lemma Cat_validate raw :
  match Cat.errors raw with
  | [] => ∃ m, Cat.validate raw = inr m
  | es => Cat.validate raw = inl es
  end.
Proof. unfold Cat.validate. destruct (Cat.errors raw); eauto. Qed.

Lemma Sighting_validate raw :
  match Sighting.errors raw with
  | [] => ∃ m, Sighting.validate raw = inr m
  | es => Sighting.validate raw = inl es
  end.
Proof.
  unfold Sighting.validate. destruct (Sighting.errors raw) eqn:He; [|done].
  unfold Sighting.errors in He. split_errors.
  destruct (SightingIn.lat raw), (SightingIn.lng raw); try discriminate. eauto.
Qed.

Lemma Place_validate raw :
  match Place.errors raw with
  | [] => ∃ m, Place.validate raw = inr m
  | es => Place.validate raw = inl es
  end.
Proof.
  unfold Place.validate. destruct (Place.errors raw) eqn:He; [|done].
  unfold Place.errors, Place.other_errors in He. split_errors.
  destruct (PlaceIn.lat raw), (PlaceIn.lng raw), (PlaceIn.name raw),
    (PlaceIn.category raw); try discriminate. eauto.
Qed.

Lemma Emergency_validate raw :
  match Emergency.errors raw with
  | [] => ∃ m, Emergency.validate raw = inr m
  | es => Emergency.validate raw = inl es
  end.
Proof.
  unfold Emergency.validate. destruct (Emergency.errors raw) eqn:He; [|done].
  unfold Emergency.errors, Emergency.other_errors in He. split_errors.
  destruct (EmergencyIn.lat raw), (EmergencyIn.lng raw), (EmergencyIn.description raw);
    try discriminate. eauto.
Qed.

Lemma handle_create_rejects r db :
  request_errors r ≠ [] →
  handle_create r db = (Err (ValidationError (request_errors r)), db).
Proof.
  destruct r as [body|body|body|body]; simpl; intros Hne.
  - unfold create_cat. pose proof (Cat_validate body) as Hv.
    destruct (Cat.errors body); [done|]. by rewrite Hv.
  - unfold create_sighting. pose proof (Sighting_validate body) as Hv.
    destruct (Sighting.errors body); [done|]. by rewrite Hv.
  - unfold create_place. pose proof (Place_validate body) as Hv.
    destruct (Place.errors body); [done|]. by rewrite Hv.
  - unfold create_emergency. pose proof (Emergency_validate body) as Hv.
    destruct (Emergency.errors body); [done|]. by rewrite Hv.
Qed.

Lemma create_document_outcome {A} `{BaseModel A} c (data : A) db :
  is_validation_error (create_document c data db).1 = false
  ∧ (operational db →
     ∃ store',
       create_document c data db
       = (Ok (py_str (VObjectId (default 0%N (next_id <$> db)))), Some store')).
Proof.
  unfold create_document. destruct db as [store|]; simpl.
  - destruct (fault store) eqn:Hf; simpl; (split; [done|]).
    + intros (? & [= <-] & ?). congruence.
    + intros _. eauto.
  - split; [done|]. intros (? & ? & _). discriminate.
Qed.

Lemma created_outcome {A} `{BaseModel A} (model_cls : Model) (data : A) db :
  let r :=
    (cid ← create_document (collection_name model_cls) data;
     mret ({[ "id" := VStr cid ]} : doc)) db in
  is_validation_error r.1 = false
  ∧ (operational db → ∃ answer store', r = (Ok answer, Some store')).
Proof.
  intros r. subst r. run.
  destruct (create_document_outcome (collection_name model_cls) data db) as [Hnv Hop].
  split.
  - by destruct (create_document (collection_name model_cls) data db) as [[?|?] ?].
  - intros Hdb. destruct (Hop Hdb) as [store' ->]. eauto.
Qed.

Lemma handle_create_accepts r db :
  request_errors r = [] →
  is_validation_error (handle_create r db).1 = false
  ∧ (operational db → ∃ answer store', handle_create r db = (Ok answer, Some store')).
Proof.
  destruct r as [body|body|body|body]; simpl; intros Hnil.
  - unfold create_cat. pose proof (Cat_validate body) as Hv.
    rewrite Hnil in Hv. destruct Hv as [m ->]. apply (created_outcome Cat m db).
  - unfold create_sighting. pose proof (Sighting_validate body) as Hv.
    rewrite Hnil in Hv. destruct Hv as [m ->]. apply (created_outcome Sighting m db).
  - unfold create_place. pose proof (Place_validate body) as Hv.
    rewrite Hnil in Hv. destruct Hv as [m ->]. apply (created_outcome Place m db).
  - unfold create_emergency. pose proof (Emergency_validate body) as Hv.
    rewrite Hnil in Hv. destruct Hv as [m ->]. apply (created_outcome Emergency m db).
Qed.

(** The errors of a request: those of its coordinates and the others. *)
Lemma request_errors_nil r :
  request_errors r = [] ↔
  coordinates_supplied r = true
  ∧ Forall (λ x, lat_in_range x = true) (latitudes r)
  ∧ Forall (λ y, lng_in_range y = true) (longitudes r)
  ∧ other_errors r = [].
Proof.
  destruct r as [body|body|body|body]; simpl.
  - unfold Cat.errors.
    destruct (CatIn.last_known_lat body) as [x|], (CatIn.last_known_lng body) as [y|];
      simpl option_list; rewrite ?Forall_singleton, ?Forall_nil, ?app_nil,
      ?lat_bounds_nil, ?lng_bounds_nil; simpl; intuition (auto; congruence).
  - unfold Sighting.errors.
    destruct (SightingIn.lat body) as [x|], (SightingIn.lng body) as [y|];
      simpl option_list; rewrite ?Forall_singleton, ?Forall_nil, ?app_nil,
      ?lat_bounds_nil, ?lng_bounds_nil; simpl; intuition (auto; congruence).
  - unfold Place.errors.
    destruct (PlaceIn.lat body) as [x|], (PlaceIn.lng body) as [y|];
      simpl option_list; rewrite ?Forall_singleton, ?Forall_nil, ?app_nil,
      ?lat_bounds_nil, ?lng_bounds_nil; simpl; intuition (auto; congruence).
  - unfold Emergency.errors.
    destruct (EmergencyIn.lat body) as [x|], (EmergencyIn.lng body) as [y|];
      simpl option_list; rewrite ?Forall_singleton, ?Forall_nil, ?app_nil,
      ?lat_bounds_nil, ?lng_bounds_nil; simpl; intuition (auto; congruence).
Qed.

(** C1: a create request on Cat, Sighting, Place or Emergency carrying a
    latitude outside [-90, 90] or a longitude outside [-180, 180] is
    rejected with a validation error and the store is left as it was; a
    payload whose coordinates are in range, with the required ones
    supplied and the other fields valid, passes validation (and is
    persisted by an operational store). *)
Theorem coordinates_out_of_range_rejected (r : CreateRequest) (db : DB) :
  ((∃ x, x ∈ latitudes r ∧ lat_in_range x = false)
   ∨ (∃ y, y ∈ longitudes r ∧ lng_in_range y = false) →
   ∃ es, handle_create r db = (Err (ValidationError es), db))
  ∧ (Forall (λ x, lat_in_range x = true) (latitudes r) →
     Forall (λ y, lng_in_range y = true) (longitudes r) →
     coordinates_supplied r = true →
     other_errors r = [] →
     is_validation_error (handle_create r db).1 = false
     ∧ (operational db → ∃ answer store', handle_create r db = (Ok answer, Some store'))).
Proof.
  split.
  - intros Hout. eexists. apply handle_create_rejects.
    rewrite request_errors_nil. intros (_ & Hlat & Hlng & _).
    rewrite Forall_forall in Hlat, Hlng.
    destruct Hout as [(x & Hx & Hr)|(y & Hy & Hr)].
    + apply Hlat in Hx. congruence.
    + apply Hlng in Hy. congruence.
  - intros Hlat Hlng Hsup Hother. apply handle_create_accepts.
    by apply request_errors_nil.
Qed.

End Coordinates.

Lemma coordinates_out_of_range_rejected_witness :
  (∃ es,
     handle_create (H := Sample.runtime) (CreateSighting Sample.off_the_map)
       (Some Sample.empty_store)
     = (Err (ValidationError es), Some Sample.empty_store))
  ∧ is_validation_error
      (handle_create (H := Sample.runtime) (CreateSighting Sample.on_the_map)
         (Some Sample.empty_store)).1 = false.
Proof.
  split.
  - apply (proj1 (coordinates_out_of_range_rejected (H := Sample.runtime)
                    (CreateSighting Sample.off_the_map) (Some Sample.empty_store))).
    left. exists 91%float. split; [constructor|reflexivity].
  - apply (proj2 (coordinates_out_of_range_rejected (H := Sample.runtime)
                    (CreateSighting Sample.on_the_map) (Some Sample.empty_store))).
    + repeat constructor.
    + repeat constructor.
    + reflexivity.
    + reflexivity.
Defined.

(** ** Signup *)

Section Signup.
Context `{Runtime}.

(** C2: a signup body without [email] is rejected and the store is left
    as it was; a body with an email, a nickname of at most 40 characters
    and, if any, a well-formed avatar URL adds exactly one document to
    the [user] collection of an operational store, with [role = "user"],
    [points = 0], [badges = []] and [is_active = true], whatever else
    the body carries. *)
Theorem signup_creates_plain_user (body : SignupPayloadIn.t) (db : DB) :
  (SignupPayloadIn.email body = None →
   ∃ es, signup body db = (Err (ValidationError es), db))
  ∧ (∀ store e n,
       db = Some store →
       fault store = None →
       SignupPayloadIn.email body = Some e →
       SignupPayloadIn.nickname body = Some n →
       (len n ≤ 40)%nat →
       (∀ u, SignupPayloadIn.avatar_url body = Some u → is_http_url u = true) →
       ∃ store' (d : doc),
         signup body db
         = (Ok {[ "id" := VStr (py_str (VObjectId (next_id store))) ]}, Some store')
         ∧ docs_of store' "user" = (docs_of store "user" ++ [d])%list
         ∧ (∀ c, c ≠ "user" → docs_of store' c = docs_of store c)
         ∧ d !! "_id" = Some (VObjectId (next_id store))
         ∧ d !! "email" = Some (VStr e)
         ∧ d !! "nickname" = Some (VStr n)
         ∧ d !! "role" = Some (VStr "user")
         ∧ d !! "points" = Some (VInt 0)
         ∧ d !! "badges" = Some (VList [])
         ∧ d !! "is_active" = Some (VBool true)).
Proof.
  split.
  - intros He. unfold signup, SignupPayload.validate, SignupPayload.errors.
    rewrite He. simpl. eauto.
  - intros store e n -> Hfault He Hn Hlen Hurl.
    unfold signup, SignupPayload.validate, SignupPayload.errors.
    rewrite He, Hn. simpl. run. simpl.
    unfold User.validate, User.errors. simpl.
    apply Nat.leb_le in Hlen. rewrite Hlen. simpl.
    assert (Field.http_url "avatar_url" (SignupPayloadIn.avatar_url body) = []) as ->.
    { unfold Field.http_url. destruct (SignupPayloadIn.avatar_url body) as [u|]; [|done].
      by rewrite (Hurl u). }
    simpl. unfold create_document. rewrite Hfault.
    do 2 eexists. split; [reflexivity|].
    unfold docs_of at 1. simpl. rewrite lookup_insert_eq. simpl.
    split; [reflexivity|]. split.
    { intros c Hc. unfold docs_of. simpl. by rewrite lookup_insert_ne. }
    repeat split; reflexivity.
Qed.

End Signup.

Lemma signup_creates_plain_user_witness :
  ∃ store' (d : doc),
    signup (H := Sample.runtime) Sample.pushy_signup (Some Sample.empty_store)
    = (Ok {[ "id" := VStr "0" ]}, Some store')
    ∧ docs_of store' "user" = [d]
    ∧ d !! "role" = Some (VStr "user")
    ∧ d !! "points" = Some (VInt 0)
    ∧ d !! "badges" = Some (VList [])
    ∧ d !! "is_active" = Some (VBool true).
Proof.
  destruct (proj2 (signup_creates_plain_user (H := Sample.runtime)
                     Sample.pushy_signup (Some Sample.empty_store))
              Sample.empty_store "ada@example.org" "ada"
              eq_refl eq_refl eq_refl eq_refl)
    as (store' & d & Hrun & Hdocs & _ & _ & _ & _ & Hrole & Hpoints & Hbadges & Hactive).
  - vm_compute. lia.
  - intros u Hu. discriminate.
  - exists store', d. repeat split; assumption.
Defined.

(** ** Public records *)

Section Public.
Context `{Runtime}.

Lemma to_public_with_id (d : doc) v :
  d !! "_id" = Some v →
  to_public d = <["id" := VStr (py_str v)]> (delete "_id" d).
Proof.
  intros Hid. unfold to_public. rewrite Hid.
  destruct (size d =? 0)%nat eqn:Hsize; [|done].
  apply Nat.eqb_eq, map_size_empty_iff in Hsize. subst d.
  by rewrite lookup_empty in Hid.
Qed.

Lemma to_public_without_id (d : doc) :
  d !! "_id" = None → to_public d = d.
Proof.
  intros Hid. unfold to_public. rewrite Hid. by destruct (size d =? 0)%nat.
Qed.

(** What [to_public] does to a document that carries an identifier. *)
Lemma to_public_fields (d : doc) v :
  d !! "_id" = Some v →
  to_public d !! "id" = Some (VStr (py_str v))
  ∧ to_public d !! "_id" = None
  ∧ ∀ k, k ≠ "id" → k ≠ "_id" → to_public d !! k = d !! k.
Proof.
  intros Hid. rewrite (to_public_with_id d v Hid). repeat split.
  - apply lookup_insert_eq.
  - rewrite lookup_insert_ne by done. apply lookup_delete_eq.
  - intros k Hk1 Hk2. rewrite lookup_insert_ne by done. by rewrite lookup_delete_ne.
Qed.

(** Every list handler has the shape of [listing], on the collection of
    its resource. *)
Lemma handle_list_listing (r : ListRequest) :
  ∃ dflt lo hi f limit,
    handle_list r = listing dflt lo hi (collection_name (source r)) f limit.
Proof.
  destruct r; simpl;
    [ unfold list_cats | unfold list_sightings | unfold list_places | unfold list_posts
    | unfold list_emergencies | unfold list_badges | unfold list_articles ];
    do 5 eexists; unfold listing; reflexivity.
Qed.

Lemma stored_of_listed dflt lo hi c f limit store rs db' rec :
  listing dflt lo hi c f limit (Some store) = (Ok rs, db') →
  rec ∈ rs →
  ∃ d, d ∈ docs_of store c ∧ rec = to_public d.
Proof.
  intros Hrun Hrec.
  apply listing_inv in Hrun as [_ (n & store0 & p & [= <-] & _ & _ & _ & ->)].
  apply list_elem_of_fmap in Hrec as (d & -> & Hd).
  exists d. split; [|done].
  apply elem_of_take in Hd as (i & Hi & _).
  assert (d ∈ List.filter p (docs_of store c)) as Hin
    by (apply list_elem_of_lookup; eauto).
  apply list_elem_of_In, filter_In in Hin as [Hin _]. by apply list_elem_of_In.
Qed.

(** The invariant holds initially and creating a document keeps it. *)
Lemma identified_create_document {A} `{BaseModel A} c (data : A) store r store' :
  identified store →
  create_document c data (Some store) = (r, Some store') →
  identified store'.
Proof.
  intros Hinv. unfold create_document.
  destruct (fault store); [by intros [= _ <-]|].
  intros [= _ <-] name d. unfold docs_of at 1. simpl.
  destruct (decide (c = name)) as [<-|Hne].
  - rewrite lookup_insert_eq. simpl. intros Hd.
    apply elem_of_app in Hd as [Hd|Hd]; [by eapply Hinv|].
    apply list_elem_of_singleton in Hd as ->.
    eexists. apply lookup_insert_eq.
  - rewrite lookup_insert_ne by done. apply Hinv.
Qed.

(** C7: on a store whose documents carry their store-assigned
    identifier, every record returned by a list operation comes from a
    stored document of the listed collection, shows that identifier as a
    string under ["id"], has no ["_id"], and agrees with the stored
    document on every other field. *)
Theorem listed_records_are_public (r : ListRequest) (store : Store)
    (rs : list doc) (db' : DB) :
  identified store →
  handle_list r (Some store) = (Ok rs, db') →
  ∀ rec, rec ∈ rs →
    ∃ d oid,
      d ∈ docs_of store (collection_name (source r))
      ∧ d !! "_id" = Some (VObjectId oid)
      ∧ rec !! "id" = Some (VStr (py_str (VObjectId oid)))
      ∧ rec !! "_id" = None
      ∧ ∀ k, k ≠ "id" → k ≠ "_id" → rec !! k = d !! k.
Proof.
  intros Hinv Hrun rec Hrec.
  destruct (handle_list_listing r) as (dflt & lo & hi & f & limit & Hshape).
  rewrite Hshape in Hrun.
  destruct (stored_of_listed _ _ _ _ _ _ _ _ _ _ Hrun Hrec) as (d & Hd & ->).
  destruct (Hinv _ _ Hd) as [oid Hoid].
  exists d, oid. split; [done|]. split; [done|].
  by apply to_public_fields.
Qed.

End Public.

Lemma sample_cats_identified l :
  Forall has_id l → identified (Sample.cats l).
Proof.
  intros Hl name d. unfold docs_of, Sample.cats. simpl.
  destruct (decide (name = "cat")) as [->|Hne].
  - rewrite lookup_singleton_eq. simpl. rewrite Forall_forall in Hl. apply Hl.
  - rewrite lookup_singleton_ne by done. simpl. by intros ?%elem_of_nil.
Qed.

Lemma listed_records_are_public_witness :
  ∃ d oid,
    d ∈ docs_of (Sample.cats [Sample.tom]) "cat"
    ∧ d !! "_id" = Some (VObjectId oid)
    ∧ to_public (H := Sample.runtime) Sample.tom !! "id" = Some (VStr (pretty oid))
    ∧ to_public (H := Sample.runtime) Sample.tom !! "_id" = None
    ∧ ∀ k, k ≠ "id" → k ≠ "_id" →
        to_public (H := Sample.runtime) Sample.tom !! k = d !! k.
Proof.
  apply (listed_records_are_public (H := Sample.runtime) (ListCats None None)
           (Sample.cats [Sample.tom]) [to_public (H := Sample.runtime) Sample.tom]
           (Some (Sample.cats [Sample.tom]))).
  - apply sample_cats_identified. repeat constructor. by exists 0%N.
  - vm_compute. reflexivity.
  - constructor.
Defined.

(** ** Bounding boxes *)

(** *** Comparisons of floats *)

Lemma SFcompare_swap (a b : spec_float) :
  SFcompare b a = CompOpp <$> SFcompare a b.
Proof.
  destruct a as [s1|s1| |s1 m1 e1], b as [s2|s2| |s2 m2 e2]; simpl;
    try reflexivity; try (by destruct s1); try (by destruct s2);
    try (by destruct s1, s2).
  destruct s1, s2; simpl; try reflexivity.
  - rewrite (Z.compare_antisym e1 e2).
    destruct (e1 ?= e2)%Z; simpl; try reflexivity.
    f_equal. f_equal. symmetry. apply (Pos.compare_cont_antisym m1 m2 Eq).
  - rewrite (Z.compare_antisym e1 e2).
    destruct (e1 ?= e2)%Z; simpl; try reflexivity.
    f_equal. symmetry. apply (Pos.compare_cont_antisym m1 m2 Eq).
Qed.

(** Two floats that compare equal are the same float, or two zeros. *)
Lemma SFcompare_Eq (a b : spec_float) :
  SFcompare a b = Some Eq →
  a = b ∨ ∃ s1 s2, a = S754_zero s1 ∧ b = S754_zero s2.
Proof.
  destruct a as [s1|s1| |s1 m1 e1], b as [s2|s2| |s2 m2 e2]; simpl;
    try discriminate; try (by destruct s1); try (by destruct s2).
  - eauto.
  - destruct s1, s2; try discriminate; auto.
  - destruct s1, s2; try discriminate;
      destruct (e1 ?= e2)%Z eqn:He; try discriminate;
      apply Z.compare_eq in He as ->; intros [= Hm]; left; f_equal.
    + apply Pos.compare_eq. unfold Pos.compare.
      by destruct (Pos.compare_cont Eq m1 m2).
    + by apply Pos.compare_eq.
Qed.

Lemma number_not_nan (a : float) :
  PyFloat.is_nan a = false ↔ Prim2SF a ≠ S754_nan.
Proof.
  unfold PyFloat.is_nan, PrimFloat.is_nan. rewrite FloatAxioms.eqb_spec. unfold SFeqb.
  destruct (Prim2SF a) as [s|s| |s m e]; simpl.
  - done.
  - by destruct s.
  - split; [discriminate|congruence].
  - change PosDef.Pos.compare_cont with Pos.compare_cont.
    destruct s; rewrite Z.compare_refl, Pos.compare_cont_refl; simpl; done.
Qed.

Lemma SFcompare_numbers (a b : spec_float) :
  a ≠ S754_nan → b ≠ S754_nan → is_Some (SFcompare a b).
Proof. destruct a, b; simpl; try done; eauto. Qed.

Lemma same_bound_of_Eq (a b : float) :
  SFcompare (Prim2SF a) (Prim2SF b) = Some Eq → same_bound a b.
Proof.
  intros [Hab|(s1 & s2 & Ha & Hb)]%SFcompare_Eq.
  - apply Prim2SF_inj in Hab as ->. by intros v.
  - intros v. destruct v as [| | |x| | | |]; simpl; try reflexivity.
    + unfold Z_compare_float. by rewrite Ha, Hb.
    + assert (PyFloat.is_nan a = false) as -> by (apply number_not_nan; by rewrite Ha).
      assert (PyFloat.is_nan b = false) as -> by (apply number_not_nan; by rewrite Hb).
      rewrite !andb_false_r, !FloatAxioms.compare_spec, Ha, Hb.
      by destruct (Prim2SF x).
Qed.

Lemma min_swap (a b : float) :
  PyFloat.is_nan a = false → PyFloat.is_nan b = false →
  same_bound (PyFloat.min a b) (PyFloat.min b a).
Proof.
  intros Ha%number_not_nan Hb%number_not_nan.
  unfold PyFloat.min, PyFloat.lt. rewrite !ltb_spec. unfold SFltb.
  rewrite (SFcompare_swap (Prim2SF a) (Prim2SF b)).
  destruct (SFcompare_numbers _ _ Ha Hb) as [c Hc]. rewrite Hc. simpl.
  destruct c; simpl; try (by intros v). by apply same_bound_of_Eq.
Qed.

Lemma max_swap (a b : float) :
  PyFloat.is_nan a = false → PyFloat.is_nan b = false →
  same_bound (PyFloat.max a b) (PyFloat.max b a).
Proof.
  intros Ha%number_not_nan Hb%number_not_nan.
  unfold PyFloat.max, PyFloat.lt. rewrite !ltb_spec. unfold SFltb.
  rewrite (SFcompare_swap (Prim2SF a) (Prim2SF b)).
  destruct (SFcompare_numbers _ _ Ha Hb) as [c Hc]. rewrite Hc. simpl.
  destruct c; simpl; try (by intros v). by apply same_bound_of_Eq.
Qed.

Lemma between_ext (lo hi lo' hi' : float) (v : value) :
  same_bound lo lo' → same_bound hi hi' →
  num_gte v lo && num_lte v hi = num_gte v lo' && num_lte v hi'.
Proof. intros Hlo Hhi. unfold num_gte, num_lte. by rewrite (Hlo v), (Hhi v). Qed.

(** *** The bounding-box query *)

Section BoundingBox.
Context `{Runtime}.

Lemma to_public_other (d : doc) k :
  k ≠ "id" → k ≠ "_id" → to_public d !! k = d !! k.
Proof.
  intros Hk1 Hk2. destruct (d !! "_id") as [v|] eqn:Hid.
  - by apply (to_public_fields d v Hid).
  - by rewrite to_public_without_id.
Qed.

(** Two calls whose boxes have indistinguishable bounds return the same. *)
Lemma list_sightings_ext (ne_lat ne_lng sw_lat sw_lng ne_lat' ne_lng' sw_lat' sw_lng' : float)
    limit status db :
  same_bound (PyFloat.min sw_lat ne_lat) (PyFloat.min sw_lat' ne_lat') →
  same_bound (PyFloat.max sw_lat ne_lat) (PyFloat.max sw_lat' ne_lat') →
  same_bound (PyFloat.min sw_lng ne_lng) (PyFloat.min sw_lng' ne_lng') →
  same_bound (PyFloat.max sw_lng ne_lng) (PyFloat.max sw_lng' ne_lng') →
  list_sightings (Some ne_lat) (Some ne_lng) (Some sw_lat) (Some sw_lng) limit status db
  = list_sightings (Some ne_lat') (Some ne_lng') (Some sw_lat') (Some sw_lng')
      limit status db.
Proof.
  intros Hlat_lo Hlat_hi Hlng_lo Hlng_hi. unfold list_sightings. run.
  destruct (Query 100 1 500 limit db) as [[n|e] db1]; [|done].
  unfold get_documents. destruct db1 as [store|]; [|done].
  destruct (fault store); [done|].
  destruct (truthy status); simpl; do 4 f_equal; apply filter_ext; intros d;
    simpl; destruct (d !! "lat") as [x|], (d !! "lng") as [y|];
    rewrite ?(between_ext _ _ _ _ x Hlat_lo Hlat_hi),
      ?(between_ext _ _ _ _ y Hlng_lo Hlng_hi); reflexivity.
Qed.

Lemma same_bound_refl (a : float) : same_bound a a.
Proof. by intros v. Qed.

(** The records a bounding-box call returns lie in the box. *)
Lemma list_sightings_in_box (ne_lat ne_lng sw_lat sw_lng : float) limit status db rs db' :
  list_sightings (Some ne_lat) (Some ne_lng) (Some sw_lat) (Some sw_lng) limit status db
  = (Ok rs, db') →
  ∀ rec, rec ∈ rs →
    ∃ x y,
      rec !! "lat" = Some x ∧ rec !! "lng" = Some y
      ∧ num_gte x (PyFloat.min sw_lat ne_lat) = true
      ∧ num_lte x (PyFloat.max sw_lat ne_lat) = true
      ∧ num_gte y (PyFloat.min sw_lng ne_lng) = true
      ∧ num_lte y (PyFloat.max sw_lng ne_lng) = true.
Proof.
  intros Hrun rec Hrec.
  change (list_sightings (Some ne_lat) (Some ne_lng) (Some sw_lat) (Some sw_lng) limit status)
    with (listing 100 1 500 "sighting"
            ((if truthy status then [ Where "status" (Equals (default "" status)) ] else [])
             ++ [ Where "lat" (Between (PyFloat.min sw_lat ne_lat) (PyFloat.max sw_lat ne_lat));
                  Where "lng" (Between (PyFloat.min sw_lng ne_lng) (PyFloat.max sw_lng ne_lng)) ])%list
            limit) in Hrun.
  apply listing_inv in Hrun as [_ (n & store & p & _ & _ & Hp & _ & ->)].
  apply list_elem_of_fmap in Hrec as (d & -> & Hd).
  apply elem_of_take in Hd as (i & Hi & _).
  assert (d ∈ List.filter p (docs_of store "sighting")) as Hin
    by (apply list_elem_of_lookup; eauto).
  apply list_elem_of_In, filter_In in Hin as [_ Hpd].
  rewrite !to_public_other by done.
  destruct (truthy status); simpl in Hp; injection Hp as <-; simpl in Hpd;
    destruct (d !! "lat") as [x|], (d !! "lng") as [y|];
    rewrite ?andb_false_r, ?andb_true_r in Hpd; simpl in Hpd; try discriminate;
    repeat match goal with
      | Hb : _ && _ = true |- _ => apply andb_true_iff in Hb as [? ?]
      end;
    exists x, y; repeat split; assumption.
Qed.

(** C3, as the code has it: when no corner coordinate is NaN, the call
    with [ne = (a, b)], [sw = (c, d)] returns the same as the call with
    the corners exchanged, on both axes or on either one; the records
    returned have their latitude and longitude between the [min] and the
    [max] of the two corners. *)
Theorem bounding_box_corner_order (a b c d : float)
    (limit : option Z) (status : option string) (db : DB) :
  PyFloat.is_nan a = false → PyFloat.is_nan b = false →
  PyFloat.is_nan c = false → PyFloat.is_nan d = false →
  list_sightings (Some a) (Some b) (Some c) (Some d) limit status db
  = list_sightings (Some c) (Some d) (Some a) (Some b) limit status db
  ∧ list_sightings (Some a) (Some b) (Some c) (Some d) limit status db
    = list_sightings (Some c) (Some b) (Some a) (Some d) limit status db
  ∧ list_sightings (Some a) (Some b) (Some c) (Some d) limit status db
    = list_sightings (Some a) (Some d) (Some c) (Some b) limit status db
  ∧ ∀ rs db',
      list_sightings (Some a) (Some b) (Some c) (Some d) limit status db = (Ok rs, db') →
      ∀ rec, rec ∈ rs →
        ∃ x y,
          rec !! "lat" = Some x ∧ rec !! "lng" = Some y
          ∧ num_gte x (PyFloat.min c a) = true ∧ num_lte x (PyFloat.max c a) = true
          ∧ num_gte y (PyFloat.min d b) = true ∧ num_lte y (PyFloat.max d b) = true.
Proof.
  intros Ha Hb Hc Hd. repeat split.
  - apply list_sightings_ext; auto using min_swap, max_swap.
  - apply list_sightings_ext; auto using min_swap, max_swap, same_bound_refl.
  - apply list_sightings_ext; auto using min_swap, max_swap, same_bound_refl.
  - intros rs db' Hrun. by apply list_sightings_in_box with (db := db) (db' := db')
      (limit := limit) (status := status).
Qed.

End BoundingBox.

Lemma bounding_box_corner_order_witness :
  list_sightings (H := Sample.runtime)
    (Some 10%float) (Some 10%float) (Some (-5)%float) (Some (-5)%float)
    None None (Some Sample.sightings)
  = list_sightings (H := Sample.runtime)
      (Some (-5)%float) (Some (-5)%float) (Some 10%float) (Some 10%float)
      None None (Some Sample.sightings).
Proof.
  exact (proj1 (bounding_box_corner_order (H := Sample.runtime)
                  10%float 10%float (-5)%float (-5)%float
                  None None (Some Sample.sightings)
                  eq_refl eq_refl eq_refl eq_refl)).
Defined.

(** C3, as stated, fails on a NaN corner: [min] and [max] keep their
    first argument when the comparison with NaN is false, so
    [ne_lat = nan, sw_lat = 5] gives the box [5, 5] on latitudes and
    returns the sighting at latitude 5, while [ne_lat = 5, sw_lat = nan]
    gives the bounds [nan, nan] and returns nothing. *)
Lemma bounding_box_corner_order_fails_on_nan :
  ¬ (∀ (rt : Runtime) (db : DB) (a b c d : float)
       (limit : option Z) (status : option string),
       list_sightings (Some a) (Some b) (Some c) (Some d) limit status db
       = list_sightings (Some c) (Some d) (Some a) (Some b) limit status db).
Proof.
  intros Hclaim.
  specialize (Hclaim Sample.runtime (Some Sample.sightings)
                nan 10%float 5%float 0%float None None).
  vm_compute in Hclaim. discriminate.
Qed.

(** ** Free-text search *)

(** *** Literal patterns *)

Lemma parse_chars_plain (l : list string) :
  forallb (λ ch, negb (Regex.is_meta ch)) l = true →
  Regex.parse_chars l = Some (Regex.Lit <$> l).
Proof.
  induction l as [|ch l IH]; simpl; [done|].
  intros [Hc Hl]%andb_true_iff. apply negb_true_iff in Hc.
  destruct (String.eqb ch ".") eqn:Hdot.
  - apply String.eqb_eq in Hdot as ->. discriminate.
  - rewrite Hc, (IH Hl). reflexivity.
Qed.

Lemma parse_plain (q : string) :
  Regex.plain q = true → Regex.parse q = Some (literals q).
Proof. apply parse_chars_plain. Qed.

Section Search.
Context `{Runtime}.

Lemma match_here_literals (qs cs : list string) :
  Regex.match_here true (Regex.Lit <$> qs) cs = true ↔
  ∃ mid post, cs = (mid ++ post)%list ∧ same_text qs mid.
Proof.
  unfold same_text. revert cs. induction qs as [|p qs IH]; intros cs; simpl.
  - split; [|done]. intros _. exists [], cs. split; [done|constructor].
  - destruct cs as [|c cs].
    + split; [done|]. intros (mid & post & Hs & Hmid).
      inversion Hmid; subst. discriminate.
    + rewrite andb_true_iff, IH. unfold Regex.char_matches. split.
      * intros [Hpc (mid & post & -> & Hmid)].
        exists (c :: mid), post. split; [done|]. by constructor.
      * intros (mid & post & Hs & Hmid).
        inversion Hmid as [|p' c' qs' mid' Hpc Hrest]; subst.
        injection Hs as -> ->. split; [done|]. by exists mid', post.
Qed.

(** Searching for a literal pattern is looking for a run of characters. *)
Lemma search_literals (q s : string) :
  Regex.search true (literals q) (chars s) = true ↔ occurs_ci q s.
Proof.
  unfold occurs_ci, literals. generalize (chars s) as cs. generalize (chars q) as qs.
  intros qs cs. induction cs as [|c cs IH]; simpl.
  - rewrite orb_false_r, match_here_literals. split.
    + intros (mid & post & Hs & Hmid). by exists [], mid, post.
    + intros (pre & mid & post & Hs & Hmid).
      destruct pre; simpl in Hs; [|discriminate]. by exists mid, post.
  - rewrite orb_true_iff, match_here_literals, IH. split.
    + intros [(mid & post & Hs & Hmid)|(pre & mid & post & Hs & Hmid)].
      * by exists [], mid, post.
      * exists (c :: pre), mid, post. simpl. by rewrite Hs.
    + intros (pre & mid & post & Hs & Hmid).
      destruct pre as [|c' pre]; simpl in Hs.
      * left. by exists mid, post.
      * injection Hs as -> ->. right. by exists pre, mid, post.
Qed.

Lemma compile_plain (q : string) :
  Regex.plain q = true →
  Regex.compile q "i" = Some (λ s, Regex.search true (literals q) (chars s)).
Proof. intros Hq. unfold Regex.compile. by rewrite (parse_plain q Hq). Qed.

Lemma field_matches_contains (q key : string) (d : doc) :
  field_matches q key d = true ↔ field_contains q key d.
Proof.
  unfold field_matches, field_contains.
  destruct (d !! key) as [[| | | |s| | |]|]; try (split; [done|by intros (? & [=] & _)]).
  rewrite search_literals. split.
  - intros Hs. by exists s.
  - by intros (s' & [= <-] & Hs).
Qed.

(** C5, as the code has it: for a non-empty [q] free of regular-expression
    metacharacters, the Cat list returns the first [limit] (in the order
    of the store) of the stored cats in whose name or description [q]
    occurs as a run of consecutive characters, letter case apart: two
    ASCII characters are the same letter when they are equal in lower
    case, and the store's engine says whether two characters are the
    same letter when one of them is outside ASCII. So [TABBY] and
    [tabby] both find a cat described as "Friendly tabby". *)
Theorem list_cats_plain_query (q : string) (limit : option Z) (store : Store) :
  fault store = None →
  q ≠ "" →
  Regex.plain q = true →
  match limit with Some n => (1 ≤ n ≤ 200)%Z | None => True end →
  ∃ selected : doc → bool,
    (∀ d, selected d = true ↔
          field_contains q "name" d ∨ field_contains q "description" d)
    ∧ (q = "TABBY" ∨ q = "tabby" →
       ∀ d, d !! "description" = Some (VStr "Friendly tabby") → selected d = true)
    ∧ list_cats (Some q) limit (Some store)
      = (Ok (to_public <$>
               take (Z.to_nat (default 50 limit))
                 (List.filter selected (docs_of store "cat"))),
         Some store).
Proof.
  intros Hfault Hq Hplain Hlimit.
  exists (λ d, forallb (λ p : doc → bool, p d)
                 [ λ d, existsb (λ p : doc → bool, p d)
                          [ field_matches q "name"; field_matches q "description" ] ]).
  assert (∀ d,
            forallb (λ p : doc → bool, p d)
              [ λ d, existsb (λ p : doc → bool, p d)
                       [ field_matches q "name"; field_matches q "description" ] ] = true
            ↔ field_contains q "name" d ∨ field_contains q "description" d) as Hsel.
  { intros d. simpl. rewrite andb_true_r, orb_false_r, orb_true_iff.
    by rewrite !field_matches_contains. }
  split; [exact Hsel|]. split.
  - intros Htabby d Hd. apply Hsel. right. exists "Friendly tabby". split; [done|].
    exists (chars "Friendly "), (chars "tabby"), [].
    split; [reflexivity|].
    destruct Htabby as [->| ->]; vm_compute; repeat constructor.
  - rewrite list_cats_listing.
    assert (truthy (Some q) = true) as ->.
    { simpl. apply negb_true_iff, String.eqb_neq. done. }
    apply listing_runs; [done| |done].
    unfold filter_pred, clause_pred, field_pred, cond_pred. simpl.
    rewrite (compile_plain q Hplain). reflexivity.
Qed.

End Search.

Lemma list_cats_plain_query_witness :
  ∃ selected : doc → bool,
    (∀ d, selected d = true ↔
          field_contains (H := Sample.runtime) "TABBY" "name" d
          ∨ field_contains (H := Sample.runtime) "TABBY" "description" d)
    ∧ ("TABBY" = "TABBY" ∨ "TABBY" = "tabby" →
       ∀ d, d !! "description" = Some (VStr "Friendly tabby") → selected d = true)
    ∧ list_cats (H := Sample.runtime) (Some "TABBY") (Some 10)
        (Some (Sample.cats [Sample.tom; Sample.tabby; Sample.stray]))
      = (Ok (to_public (H := Sample.runtime) <$>
               take (Z.to_nat 10)
                 (List.filter selected
                    (docs_of (Sample.cats [Sample.tom; Sample.tabby; Sample.stray]) "cat"))),
         Some (Sample.cats [Sample.tom; Sample.tabby; Sample.stray])).
Proof.
  apply (list_cats_plain_query (H := Sample.runtime) "TABBY" (Some 10)
           (Sample.cats [Sample.tom; Sample.tabby; Sample.stray])).
  - reflexivity.
  - discriminate.
  - reflexivity.
  - lia.
Defined.

(** The cat described as a friendly tabby, and only that one, is
    returned for [q=TABBY] and for [q=tabby]. *)
Example friendly_tabby_is_found :
  list_cats (H := Sample.runtime) (Some "TABBY") None
    (Some (Sample.cats [Sample.tom; Sample.tabby; Sample.stray]))
  = (Ok [to_public (H := Sample.runtime) Sample.tabby],
     Some (Sample.cats [Sample.tom; Sample.tabby; Sample.stray]))
  ∧ list_cats (H := Sample.runtime) (Some "tabby") None
      (Some (Sample.cats [Sample.tom; Sample.tabby; Sample.stray]))
    = (Ok [to_public (H := Sample.runtime) Sample.tabby],
       Some (Sample.cats [Sample.tom; Sample.tabby; Sample.stray])).
Proof. split; vm_compute; reflexivity. Qed.

(** Outside ASCII the engine of the store decides: with one that knows
    the two cases of the accented e, [q=ÉCLAIR] finds the cat described
    with "éclair"; with one that does not, it finds nothing. *)
Example accented_query_follows_the_engine :
  list_cats (H := Sample.accents) (Some "ÉCLAIR") None
    (Some (Sample.cats [Sample.tom; Sample.gourmet]))
  = (Ok [to_public (H := Sample.accents) Sample.gourmet],
     Some (Sample.cats [Sample.tom; Sample.gourmet]))
  ∧ list_cats (H := Sample.runtime) (Some "ÉCLAIR") None
      (Some (Sample.cats [Sample.tom; Sample.gourmet]))
    = (Ok [], Some (Sample.cats [Sample.tom; Sample.gourmet])).
Proof. split; vm_compute; reflexivity. Qed.

(** C5, as stated, fails: [q] goes to the store as a regular expression,
    so [q = "."] returns the cat called Tom, in whose name and (absent)
    description no full stop occurs. *)
Lemma list_cats_pattern_is_not_literal :
  ¬ (∀ (rt : Runtime) (store : Store) (q : string) (limit : option Z)
       (rs : list doc) (db' : DB),
       fault store = None →
       list_cats (Some q) limit (Some store) = (Ok rs, db') →
       ∀ rec,
         rec ∈ rs ↔
         ∃ d, d ∈ docs_of store "cat" ∧ rec = to_public d
              ∧ (field_contains q "name" d ∨ field_contains q "description" d)).
Proof.
  intros Hclaim.
  assert (list_cats (H := Sample.runtime) (Some ".") None (Some (Sample.cats [Sample.tom]))
          = (Ok [to_public (H := Sample.runtime) Sample.tom],
             Some (Sample.cats [Sample.tom]))) as Hrun
    by (vm_compute; reflexivity).
  destruct (proj1 (Hclaim Sample.runtime (Sample.cats [Sample.tom]) "." None _ _
                     eq_refl Hrun (to_public (H := Sample.runtime) Sample.tom)))
    as (d & Hd & _ & Hcontains); [constructor|].
  change (docs_of (Sample.cats [Sample.tom]) "cat") with [Sample.tom] in Hd.
  apply list_elem_of_singleton in Hd as ->.
  destruct Hcontains as [Hc|Hc]; apply field_matches_contains in Hc;
    vm_compute in Hc; discriminate.
Qed.

(** Two more ways in which the list differs from "exactly the cats in
    which [q] occurs": an empty [q] selects every cat, also one without
    name and description, and the result stops at [limit] records. *)
Example list_cats_empty_query_and_limit :
  list_cats (H := Sample.runtime) (Some "") None (Some (Sample.cats [Sample.stray]))
  = (Ok [to_public (H := Sample.runtime) Sample.stray], Some (Sample.cats [Sample.stray]))
  ∧ list_cats (H := Sample.runtime) (Some "t") (Some 1)
      (Some (Sample.cats [Sample.tom; Sample.tabby]))
    = (Ok [to_public (H := Sample.runtime) Sample.tom],
       Some (Sample.cats [Sample.tom; Sample.tabby])).
Proof. split; vm_compute; reflexivity. Qed.

(** * Further properties *)

(** ** [to_public] *)

Section ToPublic.
Context `{Runtime}.

(** X1: making a record public twice is making it public once. *)
Theorem to_public_idempotent (d : doc) :
  to_public (to_public d) = to_public d.
Proof.
  destruct (d !! "_id") as [v|] eqn:Hid.
  - apply to_public_without_id. by apply (to_public_fields d v Hid).
  - by rewrite !(to_public_without_id d Hid).
Qed.

(** X2: whatever the document, the result has no ["_id"] and no more
    fields than the document had; an ["id"] field the document already
    had is kept when there is no ["_id"] and replaced by the string of
    ["_id"] when there is one. *)
Theorem to_public_hides_storage_id (d : doc) :
  to_public d !! "_id" = None
  ∧ (size (to_public d) ≤ size d)%nat
  ∧ (d !! "_id" = None → to_public d !! "id" = d !! "id")
  ∧ (∀ v, d !! "_id" = Some v → to_public d !! "id" = Some (VStr (py_str v))).
Proof.
  destruct (d !! "_id") as [v|] eqn:Hid.
  - destruct (to_public_fields d v Hid) as (Hpub & Hgone & _).
    split; [done|]. split; [|split; [done|by intros v' [= <-]]].
    rewrite (to_public_with_id d v Hid).
    assert (size d ≠ 0)%nat by (apply map_size_ne_0_lookup; eauto).
    rewrite map_size_insert, map_size_delete, Hid.
    destruct (delete "_id" d !! "id"); simpl; lia.
  - rewrite to_public_without_id by done. by repeat split.
Qed.

End ToPublic.

(** ** The limits of the list operations *)

Section Limits.
Context `{Runtime}.

Lemma handle_list_shape (r : ListRequest) :
  ∃ f,
    handle_list r
    = listing (default_limit r) 1 (max_limit r) (collection_name (source r)) f (limit_of r).
Proof.
  destruct r; simpl;
    [ unfold list_cats | unfold list_sightings | unfold list_places | unfold list_posts
    | unfold list_emergencies | unfold list_badges | unfold list_articles ];
    eexists; unfold listing; reflexivity.
Qed.

(** X3: each of the seven list operations rejects a [limit] below 1 or
    above its own maximum (200, 500 or 300) whatever the store, so before
    any query; a call that succeeds used a limit within the bounds (its
    default when omitted), returns no more records than that, and leaves
    the store as it was. *)
Theorem list_limit_bounds (r : ListRequest) (db : DB) :
  (∀ n, limit_of r = Some n → ¬ (1 ≤ n ≤ max_limit r)%Z →
        ∃ es, handle_list r db = (Err (ValidationError es), db))
  ∧ (∀ rs db',
       handle_list r db = (Ok rs, db') →
       (1 ≤ default (default_limit r) (limit_of r) ≤ max_limit r)%Z
       ∧ (Z.of_nat (length rs) ≤ default (default_limit r) (limit_of r))%Z
       ∧ db' = db).
Proof.
  destruct (handle_list_shape r) as [f ->]. split.
  - intros n -> Hn. eexists. by apply listing_rejects.
  - intros rs db' Hrun.
    apply listing_inv in Hrun as [-> (n & store & p & _ & _ & _ & Hn & ->)].
    rewrite length_fmap, length_take.
    destruct Hn as [[-> ->]|[-> Hn]]; simpl.
    + split; [destruct r; simpl; lia|].
      split; [destruct r; unfold default_limit; lia|done].
    + split; [done|]. split; [lia|done].
Qed.

End Limits.

(** ** Equality filters *)

Section EqualityFilter.
Context `{Runtime}.

Lemma handle_list_query (r : ListRequest) :
  handle_list r
  = listing (default_limit r) 1 (max_limit r) (collection_name (source r))
      (query_filter r) (limit_of r).
Proof.
  destruct r as [q l|ne_lat ne_lng sw_lat sw_lng l st|c l|l|st l|l|l]; try reflexivity.
  simpl. unfold list_sightings, listing.
  destruct ne_lat, ne_lng, sw_lat, sw_lng; rewrite ?app_nil_r; reflexivity.
Qed.

Lemma truthy_nonempty (s : string) : s ≠ "" → truthy (Some s) = true.
Proof. intros Hs. simpl. by apply negb_true_iff, String.eqb_neq. Qed.

Lemma field_is_spec (k s : string) (d : doc) :
  field_is k s d = true ↔ d !! k = Some (VStr s).
Proof.
  unfold field_is. destruct (d !! k) as [[| | | |s'| | |]|]; try (split; [done|by intros [=]]).
  rewrite String.eqb_eq. split; [by intros ->|by intros [= ->]].
Qed.

(** X4: when a list request carries a non-empty [status] (Sighting,
    Emergency) or [category] (Place), every record returned has exactly
    that value in that field; without bounding box the result is the
    first [limit] stored documents, in store order, that have it. *)
Theorem equality_filter_selects (r : ListRequest) (k s : string) (store : Store)
    (rs : list doc) (db' : DB) :
  equality_filter r = Some (k, s) →
  s ≠ "" →
  handle_list r (Some store) = (Ok rs, db') →
  (∀ rec, rec ∈ rs → rec !! k = Some (VStr s))
  ∧ (no_corner r = true →
     rs = to_public <$>
            take (Z.to_nat (default (default_limit r) (limit_of r)))
              (List.filter (field_is k s)
                 (docs_of store (collection_name (source r))))).
Proof.
  intros Hfilter Hs Hrun. rewrite handle_list_query in Hrun.
  apply listing_inv in Hrun as [_ (n & store0 & p & [= <-] & _ & Hp & Hn & ->)].
  assert (n = default (default_limit r) (limit_of r)) as ->
    by (destruct Hn as [[-> ->]|[-> _]]; done).
  assert (∀ d, p d = true → field_is k s d = true) as Hsound.
  { destruct r as [q l|ne_lat ne_lng sw_lat sw_lng l [st|]|[c|] l|l|[st|] l|l|l];
      try discriminate; injection Hfilter as <- <-; unfold query_filter in Hp;
      rewrite (truthy_nonempty _ Hs) in Hp.
    - destruct ne_lat, ne_lng, sw_lat, sw_lng; simpl in Hp; injection Hp as <-;
        intros d; simpl; intros Hd; repeat (apply andb_true_iff in Hd as [Hd _]);
        exact Hd.
    - simpl in Hp. injection Hp as <-. intros d. simpl. by rewrite andb_true_r.
    - simpl in Hp. injection Hp as <-. intros d. simpl. by rewrite andb_true_r. }
  split.
  - intros rec Hrec. apply list_elem_of_fmap in Hrec as (d & -> & Hd).
    apply elem_of_take in Hd as (i & Hi & _).
    assert (d ∈ List.filter p (docs_of store (collection_name (source r)))) as Hin
      by (apply list_elem_of_lookup; eauto).
    apply list_elem_of_In, filter_In in Hin as [_ Hpd].
    apply Hsound, field_is_spec in Hpd.
    rewrite to_public_other; [done| |];
      destruct r as [| |[?|]|?|[?|]| |]; try discriminate; simpl in Hfilter;
      try (by injection Hfilter as <- _);
      destruct status; try discriminate; by injection Hfilter as <- _.
  - intros Hbox. do 2 f_equal. apply filter_ext. intros d.
    destruct r as [q l|[|] [|] [|] [|] l [st|]|[c|] l|l|[st|] l|l|l];
      try discriminate; injection Hfilter as <- <-; unfold query_filter in Hp;
      rewrite (truthy_nonempty _ Hs) in Hp; simpl in Hp; injection Hp as <-;
      simpl; by rewrite andb_true_r.
Qed.

End EqualityFilter.

Lemma equality_filter_selects_witness :
  (∀ rec,
     rec ∈ [to_public (H := Sample.runtime) Sample.spotted] →
     rec !! "status" = Some (VStr "normal"))
  ∧ (no_corner (ListSightings None None None None None (Some "normal")) = true →
     [to_public (H := Sample.runtime) Sample.spotted]
     = to_public (H := Sample.runtime) <$>
         take (Z.to_nat 100)
           (List.filter (field_is "status" "normal")
              (docs_of Sample.sightings "sighting"))).
Proof.
  apply (equality_filter_selects (H := Sample.runtime)
           (ListSightings None None None None None (Some "normal"))
           "status" "normal" Sample.sightings
           [to_public (H := Sample.runtime) Sample.spotted] (Some Sample.sightings)).
  - reflexivity.
  - discriminate.
  - vm_compute. reflexivity.
Defined.

(** ** What the schemas reject *)

Section Rejections.
Context `{Runtime}.

Lemma existsb_eqb_elem (s : string) (l : list string) :
  existsb (String.eqb s) l = true ↔ s ∈ l.
Proof.
  rewrite existsb_exists, list_elem_of_In. split.
  - by intros (x & Hx & ->%String.eqb_eq).
  - intros Hs. exists s. by rewrite String.eqb_refl.
Qed.

Lemma rejected_with (r : CreateRequest) (db : DB) (e : FieldError) :
  e ∈ request_errors r →
  ∃ es, handle_create r db = (Err (ValidationError es), db) ∧ e ∈ es.
Proof.
  intros He. exists (request_errors r). split; [|done].
  apply handle_create_rejects. intros Hnil. rewrite Hnil in He.
  by apply elem_of_nil in He.
Qed.

(** X5: a create request on Cat, Sighting, Place or Emergency whose
    enumerated field ([status], or [category] on Place) holds a value
    outside the declared literals is rejected with a validation error on
    that field, and the store is left as it was. *)
Theorem enum_outside_literals_rejected (r : CreateRequest) (s : string) (db : DB) :
  enum_field r = Some s →
  s ∉ enum_values r →
  ∃ es,
    handle_create r db = (Err (ValidationError es), db)
    ∧ (enum_key r, "literal_error") ∈ es.
Proof.
  intros Hfield Hout. apply rejected_with.
  assert (existsb (String.eqb s) (enum_values r) = false) as Hex.
  { apply not_true_is_false. by rewrite existsb_eqb_elem. }
  destruct r as [body|body|body|body];
    cbn [enum_field enum_values enum_key request_errors] in *;
    [ unfold Cat.errors, Cat.other_errors
    | unfold Sighting.errors, Sighting.other_errors
    | unfold Place.errors, Place.other_errors
    | unfold Emergency.errors, Emergency.other_errors ];
    rewrite Hfield; unfold Field.literal; rewrite Hex;
    rewrite !elem_of_app, list_elem_of_singleton; tauto.
Qed.

(** X6: a create request whose bounded text ([description] on Cat,
    Place and Emergency, [note] on Sighting) is longer than its bound
    (500, 600, 500, 400) is rejected with a validation error on that
    field, and the store is left as it was. *)
Theorem text_too_long_rejected (r : CreateRequest) (s : string) (n : nat) (db : DB) :
  bounded_text r = (Some s, n) →
  (n < len s)%nat →
  ∃ es,
    handle_create r db = (Err (ValidationError es), db)
    ∧ (text_key r, "string_too_long") ∈ es.
Proof.
  intros Htext Hlen. apply rejected_with.
  destruct r as [body|body|body|body];
    cbn [bounded_text text_key request_errors] in *; injection Htext as Hs <-;
    [ unfold Cat.errors, Cat.other_errors
    | unfold Sighting.errors, Sighting.other_errors
    | unfold Place.errors, Place.other_errors
    | unfold Emergency.errors, Emergency.other_errors ];
    rewrite Hs; unfold Field.max_length;
    (destruct (len s <=? _)%nat eqn:Hle; [apply Nat.leb_le in Hle; lia|]);
    rewrite !elem_of_app, list_elem_of_singleton; tauto.
Qed.

(** X7: a Place whose [rating] is not within [0, 5] is rejected with a
    validation error on [rating], and the store is left as it was. *)
Theorem rating_out_of_range_rejected (body : PlaceIn.t) (x : float) (db : DB) :
  PlaceIn.rating body = Some x →
  PyFloat.le 0%float x && PyFloat.le x 5%float = false →
  ∃ es constraint,
    create_place body db = (Err (ValidationError es), db)
    ∧ ("rating", constraint) ∈ es.
Proof.
  intros Hrating Hout.
  assert (∃ constraint, ("rating", constraint) ∈ request_errors (CreatePlace body))
    as [constraint Hc].
  { simpl. unfold Place.errors, Place.other_errors. rewrite Hrating.
    unfold Field.ge, Field.le.
    destruct (PyFloat.le 0%float x), (PyFloat.le x 5%float); try discriminate;
      eexists; rewrite !elem_of_app; simpl; rewrite ?list_elem_of_singleton;
      eauto 20. }
  destruct (rejected_with (CreatePlace body) db _ Hc) as (es & Hrun & Hes).
  by exists es, constraint.
Qed.

(** X8: a Sighting without a value for [lat] or [lng], a Place without
    one for [name], [category], [lat] or [lng], and an Emergency without
    one for [lat], [lng] or [description] are rejected with a validation
    error on a required field, and the store is left as it was. *)
Theorem missing_required_field_rejected (r : CreateRequest) (db : DB) :
  missing_required r = true →
  ∃ es field,
    handle_create r db = (Err (ValidationError es), db)
    ∧ (field, "missing") ∈ es.
Proof.
  intros Hmissing.
  assert (∃ field, (field, "missing") ∈ request_errors r) as [field Hf].
  { destruct r as [body|body|body|body]; simpl in *; [discriminate| | |].
    - unfold Sighting.errors.
      destruct (SightingIn.lat body), (SightingIn.lng body); try discriminate;
        eexists; rewrite !elem_of_app; simpl; rewrite ?list_elem_of_singleton; eauto.
    - unfold Place.errors, Place.other_errors.
      destruct (PlaceIn.name body), (PlaceIn.category body), (PlaceIn.lat body),
        (PlaceIn.lng body); try discriminate;
        eexists; rewrite !elem_of_app; simpl; rewrite ?list_elem_of_singleton; eauto 10.
    - unfold Emergency.errors, Emergency.other_errors.
      destruct (EmergencyIn.lat body), (EmergencyIn.lng body),
        (EmergencyIn.description body); try discriminate;
        eexists; rewrite !elem_of_app; simpl; rewrite ?list_elem_of_singleton; eauto 10. }
  destruct (rejected_with r db _ Hf) as (es & Hrun & Hes).
  by exists es, field.
Qed.

End Rejections.

Lemma enum_outside_literals_rejected_witness :
  ∃ es,
    handle_create (H := Sample.runtime) (CreatePlace Fixture.zoo) (Some Sample.empty_store)
    = (Err (ValidationError es), Some Sample.empty_store)
    ∧ ("category", "literal_error") ∈ es.
Proof.
  apply (enum_outside_literals_rejected (H := Sample.runtime)
           (CreatePlace Fixture.zoo) "zoo" (Some Sample.empty_store)).
  - reflexivity.
  - intros Hin%existsb_eqb_elem. vm_compute in Hin. discriminate.
Defined.

Lemma text_too_long_rejected_witness :
  ∃ es,
    handle_create (H := Sample.runtime) (CreateSighting Fixture.wordy)
      (Some Sample.empty_store)
    = (Err (ValidationError es), Some Sample.empty_store)
    ∧ ("note", "string_too_long") ∈ es.
Proof.
  apply (text_too_long_rejected (H := Sample.runtime) (CreateSighting Fixture.wordy)
           (string_of_list_ascii (repeat "a"%char 401)) 400 (Some Sample.empty_store)).
  - reflexivity.
  - vm_compute. lia.
Defined.

Lemma rating_out_of_range_rejected_witness :
  ∃ es constraint,
    create_place (H := Sample.runtime) Fixture.overrated (Some Sample.empty_store)
    = (Err (ValidationError es), Some Sample.empty_store)
    ∧ ("rating", constraint) ∈ es.
Proof.
  apply (rating_out_of_range_rejected (H := Sample.runtime) Fixture.overrated 7%float
           (Some Sample.empty_store)).
  - reflexivity.
  - reflexivity.
Defined.

Lemma missing_required_field_rejected_witness :
  ∃ es field,
    handle_create (H := Sample.runtime) (CreateEmergency Fixture.mute)
      (Some Sample.empty_store)
    = (Err (ValidationError es), Some Sample.empty_store)
    ∧ (field, "missing") ∈ es.
Proof.
  apply (missing_required_field_rejected (H := Sample.runtime)
           (CreateEmergency Fixture.mute) (Some Sample.empty_store)).
  reflexivity.
Defined.

(** ** Null is not a default *)

Section Nulls.
Context `{Runtime}.

(** X24: a create request that gives null to a field that has a default
    and is not optional ([status] on Cat, Sighting and Emergency,
    [rating_count] on Place) is rejected with a validation error on that
    field, and the store is left as it was: the default is for a key
    that is left out. *)
Theorem null_for_defaulted_field_rejected (r : CreateRequest) (field : string)
    (db : DB) :
  nulled_field r = Some field →
  ∃ es,
    handle_create r db = (Err (ValidationError es), db)
    ∧ (field, "none_not_allowed") ∈ es.
Proof.
  intros Hnull. apply rejected_with.
  destruct r as [body|body|body|body]; cbn [nulled_field request_errors] in *;
    [ unfold Cat.errors, Cat.other_errors; destruct (CatIn.status body)
    | unfold Sighting.errors, Sighting.other_errors; destruct (SightingIn.status body)
    | unfold Place.errors, Place.other_errors; destruct (PlaceIn.rating_count body)
    | unfold Emergency.errors, Emergency.other_errors;
      destruct (EmergencyIn.status body) ];
    try discriminate; injection Hnull as <-;
    rewrite !elem_of_app; simpl; rewrite !list_elem_of_singleton; tauto.
Qed.

End Nulls.

Lemma null_for_defaulted_field_rejected_witness :
  ∃ es,
    handle_create (H := Sample.runtime) (CreateSighting Fixture.undecided)
      (Some Sample.empty_store)
    = (Err (ValidationError es), Some Sample.empty_store)
    ∧ ("status", "none_not_allowed") ∈ es.
Proof.
  apply (null_for_defaulted_field_rejected (H := Sample.runtime)
           (CreateSighting Fixture.undecided) "status" (Some Sample.empty_store)).
  reflexivity.
Defined.

(** A text is measured in characters: a note of 400 characters passes,
    also when it takes 800 bytes. *)
Example accented_note_is_accepted :
  (∃ note,
     SightingIn.note Fixture.accented = Some note
     ∧ len note = 400%nat ∧ String.length note = 800%nat)
  ∧ ∃ answer store',
      handle_create (H := Sample.runtime) (CreateSighting Fixture.accented)
        (Some Sample.empty_store)
      = (Ok answer, Some store').
Proof.
  split.
  - eexists. split; [reflexivity|]. split; vm_compute; reflexivity.
  - destruct (handle_create (H := Sample.runtime) (CreateSighting Fixture.accented)
                (Some Sample.empty_store)) as [[answer|e] [store'|]] eqn:Hrun;
      try (vm_compute in Hrun; discriminate). eauto.
Qed.

(** ** What the create operations store *)

Ltac nil_groups :=
  repeat match goal with
    | Hnil : (_ ++ _)%list = [] |- _ => apply app_eq_nil in Hnil as [? ?]
    end.

Section Stored.
Context `{Runtime}.

Lemma literal_nil (field : string) (allowed : list string) (v : option string) :
  Field.literal field allowed v = [] →
  match v with Some s => s ∈ allowed | None => True end.
Proof.
  unfold Field.literal. destruct v as [s|]; [|done].
  destruct (existsb (String.eqb s) allowed) eqn:Hex; [|discriminate].
  intros _. by apply existsb_eqb_elem.
Qed.

(** A successful [create_document] followed by the answer of a create
    handler: what was stored, and where. *)
Lemma created_inv {A} `{BaseModel A} (model_cls : Model) (data : A) (store : Store)
    (answer : doc) (db' : DB) :
  (cid ← create_document (collection_name model_cls) data;
   mret ({[ "id" := VStr cid ]} : doc)) (Some store) = (Ok answer, db') →
  ∃ store',
    db' = Some store'
    ∧ fault store = None
    ∧ answer = {[ "id" := VStr (py_str (VObjectId (next_id store))) ]}
    ∧ docs_of store' (collection_name model_cls)
      = (docs_of store (collection_name model_cls)
         ++ [<["_id" := VObjectId (next_id store)]> (model_dump data)])%list
    ∧ (∀ c, c ≠ collection_name model_cls → docs_of store' c = docs_of store c)
    ∧ next_id store' = N.succ (next_id store)
    ∧ fault store' = None.
Proof.
  run. unfold create_document. destruct (fault store) eqn:Hfault; [discriminate|].
  intros [= <- <-]. eexists. split; [reflexivity|]. split; [done|]. split; [done|].
  unfold docs_of at 1. simpl. rewrite lookup_insert_eq. split; [done|]. split; [|done].
  intros c Hc. unfold docs_of. simpl. by rewrite lookup_insert_ne.
Qed.

(** X9: a create request on Cat, Sighting, Place or Emergency that
    succeeds appends exactly one document to the collection of its own
    resource and touches no other collection; the answer carries the
    string of the identifier stored under ["_id"]; the enumerated field
    of the stored document is one of the declared literals: the value
    supplied, or the default when none was supplied. *)
Theorem create_stores_one_document (r : CreateRequest) (store : Store)
    (answer : doc) (db' : DB) :
  handle_create r (Some store) = (Ok answer, db') →
  ∃ store' (d : doc) (v : string),
    db' = Some store'
    ∧ answer = {[ "id" := VStr (py_str (VObjectId (next_id store))) ]}
    ∧ docs_of store' (collection_name (resource r))
      = (docs_of store (collection_name (resource r)) ++ [d])%list
    ∧ (∀ c, c ≠ collection_name (resource r) → docs_of store' c = docs_of store c)
    ∧ d !! "_id" = Some (VObjectId (next_id store))
    ∧ d !! enum_key r = Some (VStr v)
    ∧ v ∈ enum_values r
    ∧ (enum_field r = Some v ∨ enum_field r = None ∧ enum_default r = Some v).
Proof.
  destruct r as [body|body|body|body]; simpl.
  - unfold create_cat, Cat.validate.
    destruct (Cat.errors body) eqn:He; [|discriminate]. simpl.
    intros (store' & -> & _ & -> & Hdocs & Hothers & _)%(created_inv Cat).
    unfold Cat.errors, Cat.other_errors in He. nil_groups.
    match goal with Hl : Field.literal _ _ _ = [] |- _ => apply literal_nil in Hl end.
    eexists store', _, (or_default "unknown" (CatIn.status body)).
    split; [done|]. split; [done|]. split; [exact Hdocs|]. split; [exact Hothers|].
    split; [reflexivity|]. split; [reflexivity|].
    destruct (CatIn.status body) as [| |s]; simpl in *; try discriminate;
      split; auto; repeat constructor.
  - unfold create_sighting, Sighting.validate.
    destruct (Sighting.errors body) eqn:He; [|discriminate].
    destruct (SightingIn.lat body) as [la|] eqn:Hla; [|discriminate].
    destruct (SightingIn.lng body) as [lo|] eqn:Hlo; [|discriminate]. simpl.
    intros (store' & -> & _ & -> & Hdocs & Hothers & _)%(created_inv Sighting).
    unfold Sighting.errors, Sighting.other_errors in He. nil_groups.
    match goal with Hl : Field.literal _ _ _ = [] |- _ => apply literal_nil in Hl end.
    eexists store', _, (or_default "normal" (SightingIn.status body)).
    split; [done|]. split; [done|]. split; [exact Hdocs|]. split; [exact Hothers|].
    split; [reflexivity|]. split; [reflexivity|].
    destruct (SightingIn.status body) as [| |s]; simpl in *; try discriminate;
      split; auto; repeat constructor.
  - unfold create_place, Place.validate.
    destruct (Place.errors body) eqn:He; [|discriminate].
    destruct (PlaceIn.name body) as [nm|] eqn:Hnm; [|discriminate].
    destruct (PlaceIn.category body) as [ca|] eqn:Hca; [|discriminate].
    destruct (PlaceIn.lat body) as [la|] eqn:Hla; [|discriminate].
    destruct (PlaceIn.lng body) as [lo|] eqn:Hlo; [|discriminate]. simpl.
    intros (store' & -> & _ & -> & Hdocs & Hothers & _)%(created_inv Place).
    unfold Place.errors, Place.other_errors in He. rewrite Hca in He. nil_groups.
    match goal with Hl : Field.literal _ _ _ = [] |- _ => apply literal_nil in Hl end.
    eexists store', _, ca.
    split; [done|]. split; [done|]. split; [exact Hdocs|]. split; [exact Hothers|].
    split; [reflexivity|]. split; [reflexivity|]. auto.
  - unfold create_emergency, Emergency.validate.
    destruct (Emergency.errors body) eqn:He; [|discriminate].
    destruct (EmergencyIn.lat body) as [la|] eqn:Hla; [|discriminate].
    destruct (EmergencyIn.lng body) as [lo|] eqn:Hlo; [|discriminate].
    destruct (EmergencyIn.description body) as [de|] eqn:Hde; [|discriminate]. simpl.
    intros (store' & -> & _ & -> & Hdocs & Hothers & _)%(created_inv Emergency).
    unfold Emergency.errors, Emergency.other_errors in He. nil_groups.
    match goal with Hl : Field.literal _ _ _ = [] |- _ => apply literal_nil in Hl end.
    eexists store', _, (or_default "open" (EmergencyIn.status body)).
    split; [done|]. split; [done|]. split; [exact Hdocs|]. split; [exact Hothers|].
    split; [reflexivity|]. split; [reflexivity|].
    destruct (EmergencyIn.status body) as [| |s]; simpl in *; try discriminate;
      split; auto; repeat constructor.
Qed.

End Stored.

Lemma create_stores_one_document_witness :
  ∃ store' (d : doc) (v : string),
    (handle_create (H := Sample.runtime) (CreateCat Fixture.nameless)
       (Some (Sample.cats [Sample.tom]))).2 = Some store'
    ∧ ({[ "id" := VStr "3" ]} : doc) = {[ "id" := VStr (pretty 3%N) ]}
    ∧ docs_of store' "cat" = [Sample.tom; d]
    ∧ (∀ c, c ≠ "cat" → docs_of store' c = docs_of (Sample.cats [Sample.tom]) c)
    ∧ d !! "_id" = Some (VObjectId 3)
    ∧ d !! "status" = Some (VStr v)
    ∧ v ∈ Cat.statuses
    ∧ (None = Some v ∨ None = @None string ∧ Some "unknown" = Some v).
Proof.
  apply (create_stores_one_document (H := Sample.runtime) (CreateCat Fixture.nameless)
           (Sample.cats [Sample.tom]) {[ "id" := VStr "3" ]}
           (handle_create (H := Sample.runtime) (CreateCat Fixture.nameless)
              (Some (Sample.cats [Sample.tom]))).2).
  vm_compute. reflexivity.
Defined.

(** ** Create, then list *)

Section RoundTrip.
Context `{Runtime}.




End RoundTrip.


(** ** More on the probe *)

Lemma append_nil_r (s : string) : s +:+ "" = s.
Proof.
  induction s as [|c s IH]; [done|].
  change (String c (s +:+ "") = String c s). by rewrite IH.
Qed.

Lemma append_assoc (s t u : string) : (s +:+ t) +:+ u = s +:+ (t +:+ u).
Proof.
  induction s as [|c s IH]; [done|].
  change (String c ((s +:+ t) +:+ u) = String c (s +:+ (t +:+ u))). by rewrite IH.
Qed.

Lemma concat_cons (g : string) (l : list string) :
  String.concat "" (g :: l) = g +:+ String.concat "" l.
Proof. destruct l; simpl; [by rewrite append_nil_r|done]. Qed.

Lemma concat_app (l1 l2 : list string) :
  String.concat "" (l1 ++ l2)%list = String.concat "" l1 +:+ String.concat "" l2.
Proof.
  induction l1 as [|g l1 IH]; [done|].
  change ((g :: l1) ++ l2)%list with (g :: (l1 ++ l2))%list.
  by rewrite !concat_cons, IH, append_assoc.
Qed.

Lemma chars_cons (c : ascii) (s : string) :
  chars (String c s)
  = match chars s with
    | g :: gs => if starts_inside g then String c g :: gs else String c "" :: g :: gs
    | [] => [String c ""]
    end.
Proof. reflexivity. Qed.

(** A string is its characters put together. *)
Lemma concat_chars (s : string) : String.concat "" (chars s) = s.
Proof.
  induction s as [|c s IH]; [done|]. rewrite chars_cons.
  destruct (chars s) as [|g gs].
  - simpl in IH. by rewrite <- IH.
  - destruct (starts_inside g); rewrite !concat_cons in *.
    + change (String c (g +:+ String.concat "" gs) = String c s). by rewrite IH.
    + change (String c (g +:+ String.concat "" gs) = String c s). by rewrite IH.
Qed.

Lemma chars_well_formed (s : string) :
  Forall (λ g, is_char g = true) (chars s)
  ∧ Forall (λ g, starts_inside g = false) (tail (chars s)).
Proof.
  induction s as [|c s [IHc IHf]]; [by split; constructor|]. rewrite chars_cons.
  destruct (chars s) as [|g gs].
  - split; repeat constructor.
  - inversion IHc as [|? ? Hg Hgs]; subst.
    destruct (starts_inside g) eqn:Hin.
    + split; [|done]. constructor; [|done].
      destruct g as [|c' r]; [discriminate|]. simpl in *. by rewrite Hin, Hg.
    + split; [by repeat constructor|]. by constructor.
Qed.

Lemma chars_continuation (r t : string) :
  all_continuation r = true →
  Forall (λ g, starts_inside g = false) (chars t) →
  chars (r +:+ t) = match r with EmptyString => chars t | _ => r :: chars t end.
Proof.
  intros Hr Ht. induction r as [|c r IH]; [done|].
  simpl in Hr. apply andb_true_iff in Hr as [Hc Hr].
  change (String c r +:+ t) with (String c (r +:+ t)).
  rewrite chars_cons, (IH Hr). destruct r as [|c' r].
  - destruct (chars t) as [|g gs]; [done|].
    inversion Ht as [|? ? Hg _]; subst. by rewrite Hg.
  - simpl in Hr. apply andb_true_iff in Hr as [Hc' _]. simpl. by rewrite Hc'.
Qed.

Lemma chars_char (g t : string) :
  is_char g = true →
  Forall (λ g, starts_inside g = false) (chars t) →
  chars (g +:+ t) = g :: chars t.
Proof.
  intros Hg Ht. destruct g as [|c r]; [discriminate|]. simpl in Hg.
  change (String c r +:+ t) with (String c (r +:+ t)).
  rewrite chars_cons, chars_continuation by done. destruct r as [|c' r].
  - destruct (chars t) as [|g gs]; [done|].
    inversion Ht as [|? ? Hgf _]; subst. by rewrite Hgf.
  - simpl in Hg. apply andb_true_iff in Hg as [Hc' _]. simpl. by rewrite Hc'.
Qed.

Lemma chars_concat_fresh (l : list string) :
  Forall (λ g, is_char g = true) l →
  Forall (λ g, starts_inside g = false) l →
  chars (String.concat "" l) = l.
Proof.
  induction l as [|g l IH]; [done|].
  intros Hc Hf. inversion Hc as [|? ? Hg Hl]; inversion Hf as [|? ? Hg' Hl']; subst.
  rewrite concat_cons, chars_char, (IH Hl Hl'); [done|done|by rewrite (IH Hl Hl')].
Qed.

(** Characters put together and taken apart again are the same. *)
Lemma chars_concat (l : list string) :
  Forall (λ g, is_char g = true) l →
  Forall (λ g, starts_inside g = false) (tail l) →
  chars (String.concat "" l) = l.
Proof.
  destruct l as [|g l]; [done|]. cbn [tail]. intros Hc Hf.
  inversion Hc as [|? ? Hg Hl]; subst.
  rewrite concat_cons, chars_char, (chars_concat_fresh l Hl Hf);
    [done|done|by rewrite (chars_concat_fresh l Hl Hf)].
Qed.

Lemma str_prefix_chars (n : nat) (s : string) :
  chars (str_prefix n s) = take n (chars s).
Proof.
  unfold str_prefix. destruct (chars_well_formed s) as [Hc Hf].
  apply chars_concat; [by apply Forall_take|].
  destruct (chars s) as [|g l], n as [|n]; simpl in *; try constructor.
  by apply Forall_take.
Qed.

Lemma str_prefix_spec (n : nat) (s : string) :
  ∃ rest,
    s = str_prefix n s +:+ rest
    ∧ chars (str_prefix n s) = take n (chars s)
    ∧ len (str_prefix n s) = Nat.min n (len s)
    ∧ ((len s ≤ n)%nat → str_prefix n s = s).
Proof.
  exists (String.concat "" (drop n (chars s))). split; [|split; [|split]].
  - unfold str_prefix. by rewrite <- concat_app, take_drop, concat_chars.
  - apply str_prefix_chars.
  - unfold len. by rewrite str_prefix_chars, length_take.
  - intros Hlen. unfold str_prefix. rewrite take_ge by done. apply concat_chars.
Qed.

(** X11: the probe reads the environment only when there is a
    connection. With one, [database_url] says "Set" exactly when
    [DATABASE_URL] is set and not empty, and [database_name] is the value
    of [DATABASE_NAME], or "Not Set" when it is unset or empty; without
    one, both say "Not Set" whatever the environment holds. *)
Theorem test_database_reports_environment (db : DB) (getenv : Env) :
  ∃ resp,
    test_database db getenv = Returned resp
    ∧ match db with
      | None =>
          Resp.database_url resp = "❌ Not Set"
          ∧ Resp.database_name resp = "❌ Not Set"
      | Some _ =>
          (Resp.database_url resp = "✅ Set" ↔
           ∃ url, getenv "DATABASE_URL" = Some url ∧ url ≠ "")
          ∧ (Resp.database_url resp = "❌ Not Set" ↔
             getenv "DATABASE_URL" = None ∨ getenv "DATABASE_URL" = Some "")
          ∧ (∀ name, getenv "DATABASE_NAME" = Some name → name ≠ "" →
                     Resp.database_name resp = name)
          ∧ (getenv "DATABASE_NAME" = None ∨ getenv "DATABASE_NAME" = Some "" →
             Resp.database_name resp = "❌ Not Set")
      end.
Proof.
  unfold test_database, try_except. destruct db as [store|].
  - destruct (list_collection_names store) as [e|names];
      (eexists; split; [reflexivity|]); simpl;
      (destruct (getenv "DATABASE_URL") as [[|c url]|] eqn:Hurl;
       destruct (getenv "DATABASE_NAME") as [[|c' name]|] eqn:Hname; simpl;
       repeat split; try done;
       try (intros; intuition (eauto; congruence));
       try (intros (? & [= <-] & ?); congruence)).
  - eexists. split; [reflexivity|]. done.
Qed.

(** X12: when listing the collections raises, the status string
    [database] is a fixed prefix followed by the first 80 characters of
    the error message, each with all of its bytes: the whole message
    when it has at most 80 characters, and never more than 80 of them. *)
Theorem test_database_truncates_error (store : Store) (getenv : Env) (e : string) :
  list_collection_names store = inl e →
  ∃ resp shown rest,
    test_database (Some store) getenv = Returned resp
    ∧ Resp.database resp = "⚠️  Connected but Error: " ++ shown
    ∧ e = shown ++ rest
    ∧ chars shown = take 80 (chars e)
    ∧ len shown = Nat.min 80 (len e)
    ∧ ((len e ≤ 80)%nat → shown = e).
Proof.
  intros He. unfold test_database, try_except. rewrite He.
  destruct (str_prefix_spec 80 e) as (rest & Hsplit & Hchars & Hlen & Hshort).
  eexists _, (str_prefix 80 e), rest. split; [reflexivity|]. simpl. done.
Qed.

Lemma test_database_truncates_error_witness :
  ∃ resp shown rest,
    test_database (Some Sample.broken_store) Sample.getenv = Returned resp
    ∧ Resp.database resp = "⚠️  Connected but Error: " ++ shown
    ∧ "connection reset" = shown ++ rest
    ∧ chars shown = take 80 (chars "connection reset")
    ∧ len shown = Nat.min 80 (len "connection reset")
    ∧ ((len "connection reset" ≤ 80)%nat → shown = "connection reset").
Proof.
  apply (test_database_truncates_error Sample.broken_store Sample.getenv
           "connection reset").
  reflexivity.
Defined.

(** ** More on signup *)

Section SignupFailures.
Context `{Runtime}.

(** X13: a signup body without [nickname] is rejected as a request
    error; a body that has both [email] and [nickname] but whose nickname
    is longer than 40 characters, or whose avatar URL is not a
    well-formed URL, passes the request schema and fails when the
    handler builds the [User]: the failure is not a validation error of
    the request. In all three cases the store is left as it was. *)
Theorem signup_failures (body : SignupPayloadIn.t) (db : DB) :
  (SignupPayloadIn.nickname body = None →
   ∃ es, signup body db = (Err (ValidationError es), db))
  ∧ (∀ e n,
       SignupPayloadIn.email body = Some e →
       SignupPayloadIn.nickname body = Some n →
       (40 < len n)%nat
       ∨ (∃ u, SignupPayloadIn.avatar_url body = Some u ∧ is_http_url u = false) →
       ∃ es, signup body db = (Err (ModelError es), db) ∧ es ≠ []).
Proof.
  split.
  - intros Hn. unfold signup, SignupPayload.validate, SignupPayload.errors.
    rewrite Hn. destruct (SignupPayloadIn.email body); simpl; eauto.
  - intros e n He Hn Hbad.
    unfold signup, SignupPayload.validate, SignupPayload.errors.
    rewrite He, Hn. simpl. run. simpl.
    unfold User.validate.
    destruct (User.errors _) as [|err errs] eqn:Herr; [|simpl; eauto].
    exfalso. unfold User.errors in Herr. simpl in Herr.
    apply app_eq_nil in Herr as [Hlen Herr].
    apply app_eq_nil in Herr as [Hurl _].
    destruct Hbad as [Hlong|(u & Hu & Hinvalid)].
    + destruct (len n <=? 40)%nat eqn:Hle; [|discriminate].
      apply Nat.leb_le in Hle. lia.
    + rewrite Hu in Hurl. simpl in Hurl. by rewrite Hinvalid in Hurl.
Qed.

End SignupFailures.

(** ** More on free-text search *)

Section CaseInsensitive.
Context `{Runtime}.

Lemma listing_ext dflt lo hi c f g limit db p p' :
  filter_pred f = Some p →
  filter_pred g = Some p' →
  (∀ d, p d = p' d) →
  listing dflt lo hi c f limit db = listing dflt lo hi c g limit db.
Proof.
  intros Hf Hg Hext. unfold listing. run.
  destruct (Query dflt lo hi limit db) as [[n|e] db1]; [|done].
  unfold get_documents. destruct db1 as [store|]; [|done].
  destruct (fault store); [done|]. rewrite Hf, Hg.
  do 4 f_equal. by apply filter_ext.
Qed.

Lemma cats_filter_pred (q : string) :
  Regex.plain q = true →
  filter_pred [ OrOf [ ("name", Regex q "i"); ("description", Regex q "i") ] ]
  = Some (λ d, forallb (λ p : doc → bool, p d)
                 [ λ d, existsb (λ p : doc → bool, p d)
                          [ field_matches q "name"; field_matches q "description" ] ]).
Proof.
  intros Hplain. unfold filter_pred, clause_pred, field_pred, cond_pred. simpl.
  rewrite (compile_plain q Hplain). reflexivity.
Qed.

Lemma same_letter_case_variant (p p' c : string) :
  (∀ p p' c, case_variant p p' = true → ascii_char c = None →
             unicode_same_letter p c = unicode_same_letter p' c) →
  case_variant p p' = true →
  same_letter p c = same_letter p' c.
Proof.
  intros Hengine Hv. unfold same_letter.
  destruct (ascii_char c) as [b|] eqn:Hc.
  - unfold case_variant in Hv.
    apply orb_true_iff in Hv as [->%String.eqb_eq|Hv]; [done|].
    destruct (ascii_char p) as [a|]; [|discriminate].
    destruct (ascii_char p') as [a'|]; [|discriminate].
    apply Ascii.eqb_eq in Hv. by rewrite Hv.
  - rewrite (Hengine p p' c Hv Hc). by destruct (ascii_char p), (ascii_char p').
Qed.

Lemma same_text_case_variant (qs qs' mid : list string) :
  (∀ p p' c, case_variant p p' = true → ascii_char c = None →
             unicode_same_letter p c = unicode_same_letter p' c) →
  Forall2 (λ p p', case_variant p p' = true) qs qs' →
  same_text qs mid ↔ same_text qs' mid.
Proof.
  intros Hengine Hqs. unfold same_text. revert mid.
  induction Hqs as [|p p' qs qs' Hp Hqs IH]; intros mid.
  - done.
  - split; intros Hmid; inversion Hmid as [|? c ? mid' Hpc Hrest]; subst;
      (constructor; [|by apply IH]).
    + by rewrite <- (same_letter_case_variant p p' c Hengine Hp).
    + by rewrite (same_letter_case_variant p p' c Hengine Hp).
Qed.

Lemma field_matches_case_variant (q q' key : string) (d : doc) :
  (∀ p p' c, case_variant p p' = true → ascii_char c = None →
             unicode_same_letter p c = unicode_same_letter p' c) →
  Forall2 (λ p p', case_variant p p' = true) (chars q) (chars q') →
  field_matches q key d = field_matches q' key d.
Proof.
  intros Hengine Hq. apply eq_true_iff_eq.
  rewrite !field_matches_contains. unfold field_contains, occurs_ci.
  split; intros (s & Hs & pre & mid & post & Hsplit & Hocc); exists s;
    (split; [done|]); exists pre, mid, post; (split; [done|]);
    by apply (same_text_case_variant (chars q) (chars q') mid Hengine Hq).
Qed.

(** X14: the case of the ASCII letters of the query does not matter: two
    non-empty queries free of metacharacters, whose characters are one by
    one the same or the two cases of an ASCII letter, give the same Cat
    list on every store, as long as the store's engine does not tell the
    two cases of an ASCII letter apart when it compares them with a
    character outside ASCII. *)
Theorem list_cats_ignores_case (q q' : string) (limit : option Z) (db : DB) :
  (∀ p p' c, case_variant p p' = true → ascii_char c = None →
             unicode_same_letter p c = unicode_same_letter p' c) →
  q ≠ "" → q' ≠ "" →
  Regex.plain q = true → Regex.plain q' = true →
  Forall2 (λ p p', case_variant p p' = true) (chars q) (chars q') →
  list_cats (Some q) limit db = list_cats (Some q') limit db.
Proof.
  intros Hengine Hq Hq' Hplain Hplain' Hcase.
  rewrite !list_cats_listing, !truthy_nonempty by done. simpl default.
  eapply listing_ext; [by apply cats_filter_pred|by apply cats_filter_pred|].
  intros d. simpl.
  by rewrite (field_matches_case_variant q q' "name" d Hengine Hcase),
    (field_matches_case_variant q q' "description" d Hengine Hcase).
Qed.

End CaseInsensitive.

(** The sample runtime compares a character outside ASCII with nothing
    but itself. *)
Lemma sample_runtime_case (p p' c : string) :
  case_variant p p' = true → ascii_char c = None →
  unicode_same_letter (Runtime := Sample.runtime) p c
  = unicode_same_letter (Runtime := Sample.runtime) p' c.
Proof.
  intros Hv Hc. unfold case_variant in Hv.
  apply orb_true_iff in Hv as [->%String.eqb_eq|Hv]; [done|].
  destruct (ascii_char p) eqn:Hp; [|discriminate].
  destruct (ascii_char p') eqn:Hp'; [|discriminate]. simpl.
  destruct (String.eqb_spec p c) as [->|_]; [congruence|].
  destruct (String.eqb_spec p' c) as [->|_]; [congruence|]. done.
Qed.

Lemma list_cats_ignores_case_witness :
  list_cats (H := Sample.runtime) (Some "TaBBy") None
    (Some (Sample.cats [Sample.tom; Sample.tabby; Sample.stray]))
  = list_cats (H := Sample.runtime) (Some "tabby") None
      (Some (Sample.cats [Sample.tom; Sample.tabby; Sample.stray])).
Proof.
  apply (list_cats_ignores_case (H := Sample.runtime) "TaBBy" "tabby" None
           (Some (Sample.cats [Sample.tom; Sample.tabby; Sample.stray]))
           sample_runtime_case);
    first [discriminate | reflexivity | (vm_compute; repeat constructor)].
Defined.

(** ** More on bounding boxes *)

Lemma SFcompare_refl (x : spec_float) :
  x ≠ S754_nan → SFcompare x x = Some Eq.
Proof.
  destruct x as [s|s| |s m e]; simpl; try done; try (by destruct s).
  change PosDef.Pos.compare_cont with Pos.compare_cont.
  intros _. by destruct s; rewrite Z.compare_refl, Pos.compare_cont_refl.
Qed.

(** Each of two numbers lies between their [min] and their [max]. *)
Lemma between_min_max (x y : float) :
  PyFloat.is_nan x = false → PyFloat.is_nan y = false →
  (num_gte (VFloat x) (PyFloat.min y x) && num_lte (VFloat x) (PyFloat.max y x) = true)
  ∧ (num_gte (VFloat y) (PyFloat.min y x) && num_lte (VFloat y) (PyFloat.max y x) = true).
Proof.
  intros Hx Hy. unfold num_gte, num_lte, compare_number. rewrite Hx, Hy. simpl.
  apply number_not_nan in Hx, Hy.
  unfold PyFloat.min, PyFloat.max, PyFloat.lt. rewrite !ltb_spec. unfold SFltb.
  rewrite (SFcompare_swap (Prim2SF y) (Prim2SF x)).
  destruct (SFcompare_numbers _ _ Hy Hx) as [c Hc]. rewrite Hc. simpl.
  destruct c; simpl; rewrite !FloatAxioms.compare_spec,
    ?(SFcompare_refl _ Hx), ?(SFcompare_refl _ Hy), ?Hc,
    ?(SFcompare_swap (Prim2SF y) (Prim2SF x)), ?Hc; simpl; done.
Qed.

Section Corners.
Context `{Runtime}.

(** X15: the bounds of the box are inclusive and the box contains its
    corners: when no corner coordinate is NaN and the collection holds
    no more sightings than [limit], a stored sighting whose latitude is
    that of either corner and whose longitude is that of either corner
    is returned. *)
Theorem corners_are_in_the_box (a b c d : float) (limit : option Z)
    (store : Store) (s : doc) :
  PyFloat.is_nan a = false → PyFloat.is_nan b = false →
  PyFloat.is_nan c = false → PyFloat.is_nan d = false →
  fault store = None →
  match limit with Some n => (1 ≤ n ≤ 500)%Z | None => True end →
  (length (docs_of store "sighting") ≤ Z.to_nat (default 100%Z limit))%nat →
  s ∈ docs_of store "sighting" →
  s !! "lat" = Some (VFloat a) ∨ s !! "lat" = Some (VFloat c) →
  s !! "lng" = Some (VFloat b) ∨ s !! "lng" = Some (VFloat d) →
  ∃ rs,
    list_sightings (Some a) (Some b) (Some c) (Some d) limit None (Some store)
    = (Ok rs, Some store)
    ∧ to_public s ∈ rs.
Proof.
  intros Ha Hb Hc Hd Hfault Hlimit Hlen Hs Hlat Hlng.
  change (list_sightings (Some a) (Some b) (Some c) (Some d) limit None)
    with (listing 100 1 500 "sighting"
            [ Where "lat" (Between (PyFloat.min c a) (PyFloat.max c a));
              Where "lng" (Between (PyFloat.min d b) (PyFloat.max d b)) ] limit).
  eexists. split.
  - by apply listing_runs.
  - apply list_elem_of_fmap_2. rewrite take_ge.
    + apply list_elem_of_In, filter_In. split; [by apply list_elem_of_In|].
      destruct (between_min_max a c Ha Hc) as [Ha_in Hc_in].
      destruct (between_min_max b d Hb Hd) as [Hb_in Hd_in].
      simpl. destruct Hlat as [-> | ->], Hlng as [-> | ->];
        rewrite ?Ha_in, ?Hb_in, ?Hc_in, ?Hd_in; reflexivity.
    + etrans; [apply filter_length_le|done].
Qed.

End Corners.

Lemma corners_are_in_the_box_witness :
  ∃ rs,
    list_sightings (H := Sample.runtime)
      (Some 5%float) (Some 10%float) (Some (-5)%float) (Some 5%float)
      None None (Some Sample.sightings)
    = (Ok rs, Some Sample.sightings)
    ∧ to_public (H := Sample.runtime) Sample.spotted ∈ rs.
Proof.
  apply (corners_are_in_the_box (H := Sample.runtime)
           5%float 10%float (-5)%float 5%float None Sample.sightings Sample.spotted);
    try reflexivity; try exact I.
  - vm_compute. lia.
  - change (docs_of Sample.sightings "sighting") with [Sample.spotted]. constructor.
  - left. reflexivity.
  - right. reflexivity.
Defined.

(** ** The other create operations *)

Section OtherCreates.
Context `{Runtime}.

Lemma max_length_nil (field : string) (n : nat) (s : string) :
  Field.max_length field n (Some s) = [] → (len s ≤ n)%nat.
Proof.
  unfold Field.max_length. destruct (len s <=? n)%nat eqn:Hle; [|discriminate].
  intros _. by apply Nat.leb_le.
Qed.

Lemma http_url_nil (field : string) (u : string) :
  Field.http_url field (Some u) = [] → is_http_url u = true.
Proof. unfold Field.http_url. by destruct (is_http_url u). Qed.

(** X16: [POST /posts] rejects, leaving the store as it was, a payload
    without [text], with a text of more than 1000 characters, with a
    latitude or longitude out of range, or with a null for [tags] or
    [miao_count]; when it succeeds it appends one document to collection
    [post] holding the text, the tags (none when omitted) and the
    [miao_count] the caller supplied (0 when omitted). *)
Theorem create_post_behaviour (body : PostIn.t) (db : DB) :
  (PostIn.text body = None
   ∨ (∃ t, PostIn.text body = Some t ∧ (1000 < len t)%nat)
   ∨ (∃ x, PostIn.lat body = Some x ∧ lat_in_range x = false)
   ∨ (∃ y, PostIn.lng body = Some y ∧ lng_in_range y = false)
   ∨ PostIn.tags body = Null
   ∨ PostIn.miao_count body = Null →
   ∃ es, create_post body db = (Err (ValidationError es), db))
  ∧ (∀ store answer db',
       db = Some store →
       create_post body db = (Ok answer, db') →
       ∃ store' (d : doc) t,
         db' = Some store'
         ∧ docs_of store' "post" = (docs_of store "post" ++ [d])%list
         ∧ PostIn.text body = Some t ∧ (len t ≤ 1000)%nat
         ∧ d !! "text" = Some (VStr t)
         ∧ d !! "tags" = Some (VList (or_default [] (PostIn.tags body)))
         ∧ d !! "miao_count" = Some (VInt (or_default 0 (PostIn.miao_count body)))
         ∧ d !! "_id" = Some (VObjectId (next_id store))).
Proof.
  split.
  - intros Hbad. unfold create_post, Post.validate.
    destruct (Post.errors body) as [|e es] eqn:He; [|simpl; eauto].
    exfalso. unfold Post.errors in He. nil_groups.
    destruct Hbad as [Ht|[(t & Ht & Hlen)|[(x & Hx & Hr)|[(y & Hy & Hr)|[Hn|Hn]]]]];
      [| | | |rewrite Hn in *; discriminate|rewrite Hn in *; discriminate].
    + rewrite Ht in *. discriminate.
    + rewrite Ht in *.
      match goal with Hm : Field.max_length _ _ _ = [] |- _ =>
        apply max_length_nil in Hm end. lia.
    + rewrite Hx in *.
      match goal with Hm : Field.lat_bounds _ _ = [] |- _ =>
        apply lat_bounds_nil in Hm end. congruence.
    + rewrite Hy in *.
      match goal with Hm : Field.lng_bounds _ _ = [] |- _ =>
        apply lng_bounds_nil in Hm end. congruence.
  - intros store answer db' ->. unfold create_post, Post.validate.
    destruct (Post.errors body) eqn:He; [|discriminate].
    destruct (PostIn.text body) as [t|] eqn:Ht; [|discriminate]. simpl.
    intros (store' & -> & _ & -> & Hdocs & _)%(created_inv Post).
    unfold Post.errors in He. rewrite Ht in He. nil_groups.
    match goal with Hm : Field.max_length _ _ _ = [] |- _ =>
      apply max_length_nil in Hm end.
    eexists store', _, t. split; [done|]. split; [exact Hdocs|].
    repeat split; try done.
Qed.

(** X17: [POST /reports] rejects, leaving the store as it was, a payload
    whose [target_type] or [reason] is missing or outside the declared
    literals, or whose [target_id] is missing; otherwise, on a store
    that is connected and meets no error, it stores the report with the
    [target_id] as given, whatever the collections hold: the target is
    not looked up. *)
Theorem create_report_behaviour (body : ReportIn.t) (db : DB) :
  ((∀ ty, ReportIn.target_type body = Some ty → ty ∉ Report.target_types)
   ∨ (∀ why, ReportIn.reason body = Some why → why ∉ Report.reasons)
   ∨ ReportIn.target_id body = None →
   ∃ es, create_report body db = (Err (ValidationError es), db))
  ∧ (∀ store ty id why,
       db = Some store → fault store = None →
       ReportIn.target_type body = Some ty → ty ∈ Report.target_types →
       ReportIn.target_id body = Some id →
       ReportIn.reason body = Some why → why ∈ Report.reasons →
       (∀ n, ReportIn.note body = Some n → (len n ≤ 300)%nat) →
       ∃ store' (d : doc),
         create_report body db
         = (Ok {[ "id" := VStr (py_str (VObjectId (next_id store))) ]}, Some store')
         ∧ docs_of store' "report" = (docs_of store "report" ++ [d])%list
         ∧ d !! "target_type" = Some (VStr ty)
         ∧ d !! "target_id" = Some (VStr id)
         ∧ d !! "reason" = Some (VStr why)).
Proof.
  split.
  - intros Hbad. unfold create_report, Report.validate.
    destruct (Report.errors body) as [|e es] eqn:He; [|simpl; eauto].
    exfalso. unfold Report.errors in He. nil_groups.
    destruct Hbad as [Hty|[Hwhy|Hid]].
    + destruct (ReportIn.target_type body) as [ty|]; [|discriminate].
      match goal with Hl : Field.literal "target_type" _ _ = [] |- _ =>
        apply literal_nil in Hl end. by apply (Hty ty).
    + destruct (ReportIn.reason body) as [why|]; [|discriminate].
      match goal with Hl : Field.literal "reason" _ _ = [] |- _ =>
        apply literal_nil in Hl end. by apply (Hwhy why).
    + rewrite Hid in *. discriminate.
  - intros store ty id why -> Hfault Hty Hty_in Hid Hwhy Hwhy_in Hnote.
    unfold create_report, Report.validate, Report.errors.
    rewrite Hty, Hid, Hwhy. unfold Field.literal.
    rewrite (proj2 (existsb_eqb_elem ty _) Hty_in),
      (proj2 (existsb_eqb_elem why _) Hwhy_in).
    assert (Field.max_length "note" 300 (ReportIn.note body) = []) as ->.
    { unfold Field.max_length. destruct (ReportIn.note body) as [n|]; [|done].
      specialize (Hnote n eq_refl). apply Nat.leb_le in Hnote. by rewrite Hnote. }
    simpl. run. unfold create_document. rewrite Hfault.
    do 2 eexists. split; [reflexivity|].
    unfold docs_of at 1. simpl. rewrite lookup_insert_eq. simpl.
    split; [reflexivity|]. repeat split; reflexivity.
Qed.

End OtherCreates.

Section Badges.
Context `{Runtime}.

(** X18: [POST /badges] only requires [code] and [label], and does not
    look for an existing badge: posting the same payload twice on a
    store that is connected and meets no error succeeds twice and leaves
    two documents with the same code, under different identifiers. *)
Theorem create_badge_allows_duplicates (body : BadgeIn.t) (store : Store)
    (code label : string) :
  fault store = None →
  BadgeIn.code body = Some code →
  BadgeIn.label body = Some label →
  ∃ answer1 answer2 store1 store2 (d1 d2 : doc),
    create_badge body (Some store) = (Ok answer1, Some store1)
    ∧ create_badge body (Some store1) = (Ok answer2, Some store2)
    ∧ docs_of store2 "badge" = (docs_of store "badge" ++ [d1; d2])%list
    ∧ d1 !! "code" = Some (VStr code)
    ∧ d2 !! "code" = Some (VStr code)
    ∧ d1 !! "_id" ≠ d2 !! "_id".
Proof.
  intros Hfault Hcode Hlabel.
  unfold create_badge, Badge.validate, Badge.errors. rewrite Hcode, Hlabel. simpl.
  run. unfold create_document. rewrite Hfault. simpl.
  do 6 eexists. split; [reflexivity|]. split; [reflexivity|].
  unfold docs_of at 1. simpl. rewrite lookup_insert_eq. simpl.
  unfold docs_of at 1. simpl. rewrite lookup_insert_eq. simpl.
  rewrite <- app_assoc. split; [reflexivity|].
  split; [reflexivity|]. split; [reflexivity|].
  rewrite !lookup_insert_eq. intros [= Hsame]. lia.
Qed.

End Badges.

Lemma create_badge_allows_duplicates_witness :
  ∃ answer1 answer2 store1 store2 (d1 d2 : doc),
    create_badge (H := Sample.runtime)
      (BadgeIn.mk (Some "CATOGRAPHER") (Some "Catographer") None None)
      (Some Sample.empty_store) = (Ok answer1, Some store1)
    ∧ create_badge (H := Sample.runtime)
        (BadgeIn.mk (Some "CATOGRAPHER") (Some "Catographer") None None)
        (Some store1) = (Ok answer2, Some store2)
    ∧ docs_of store2 "badge" = (docs_of Sample.empty_store "badge" ++ [d1; d2])%list
    ∧ d1 !! "code" = Some (VStr "CATOGRAPHER")
    ∧ d2 !! "code" = Some (VStr "CATOGRAPHER")
    ∧ d1 !! "_id" ≠ d2 !! "_id".
Proof.
  apply (create_badge_allows_duplicates (H := Sample.runtime)
           (BadgeIn.mk (Some "CATOGRAPHER") (Some "Catographer") None None)
           Sample.empty_store "CATOGRAPHER" "Catographer"); reflexivity.
Defined.

Section Articles.
Context `{Runtime}.

(** X19: [POST /articles] rejects, leaving the store as it was, a
    payload without [title] or without [body], with a cover URL that is
    not well formed, or with a null for [tags]; when it succeeds it
    appends one document to collection [article] with the title and body
    given and the tags given, or none. *)
Theorem create_article_behaviour (body : ArticleIn.t) (db : DB) :
  (ArticleIn.title body = None ∨ ArticleIn.body body = None
   ∨ (∃ u, ArticleIn.cover_url body = Some u ∧ is_http_url u = false)
   ∨ ArticleIn.tags body = Null →
   ∃ es, create_article body db = (Err (ValidationError es), db))
  ∧ (∀ store answer db',
       db = Some store →
       create_article body db = (Ok answer, db') →
       ∃ store' (d : doc) ti bo,
         db' = Some store'
         ∧ docs_of store' "article" = (docs_of store "article" ++ [d])%list
         ∧ ArticleIn.title body = Some ti ∧ ArticleIn.body body = Some bo
         ∧ d !! "title" = Some (VStr ti)
         ∧ d !! "body" = Some (VStr bo)
         ∧ d !! "tags" = Some (VList (or_default [] (ArticleIn.tags body)))).
Proof.
  split.
  - intros Hbad. unfold create_article, Article.validate.
    destruct (Article.errors body) as [|e es] eqn:He; [|simpl; eauto].
    exfalso. unfold Article.errors in He. nil_groups.
    destruct Hbad as [Ht|[Hb|[(u & Hu & Hinvalid)|Hn]]];
      [| | |rewrite Hn in *; discriminate].
    + rewrite Ht in *. discriminate.
    + rewrite Hb in *. discriminate.
    + rewrite Hu in *.
      match goal with Hm : Field.http_url _ _ = [] |- _ =>
        apply http_url_nil in Hm end. congruence.
  - intros store answer db' ->. unfold create_article, Article.validate.
    destruct (Article.errors body) eqn:He; [|discriminate].
    destruct (ArticleIn.title body) as [ti|] eqn:Hti; [|discriminate].
    destruct (ArticleIn.body body) as [bo|] eqn:Hbo; [|discriminate]. simpl.
    intros (store' & -> & _ & -> & Hdocs & _)%(created_inv Article).
    eexists store', _, ti, bo. split; [done|]. split; [exact Hdocs|].
    repeat split; done.
Qed.

End Articles.

(** ** What every store built through the application looks like *)

Section WellKept.
Context `{Runtime}.

Lemma well_kept_create_document {A} `{BaseModel A} (c : string) (data : A)
    (store : Store) (r : result string) (db' : DB) :
  well_kept store →
  model_dump data !! "id" = None →
  create_document c data (Some store) = (r, db') →
  ∃ store', db' = Some store' ∧ well_kept store'.
Proof.
  intros Hinv Hdump. unfold create_document.
  destruct (fault store); [intros [= _ <-]; eauto|].
  intros [= _ <-]. eexists. split; [reflexivity|].
  intros name d. unfold docs_of at 1. simpl.
  destruct (decide (c = name)) as [<-|Hne].
  - rewrite lookup_insert_eq. simpl. intros Hd.
    apply elem_of_app in Hd as [Hd|Hd]; [by eapply Hinv|].
    apply list_elem_of_singleton in Hd as ->. split.
    + eexists. apply lookup_insert_eq.
    + by rewrite lookup_insert_ne.
  - rewrite lookup_insert_ne by done. apply Hinv.
Qed.

Lemma well_kept_created {A} `{BaseModel A} (model_cls : Model)
    (v : list FieldError + A) (store : Store) (res : result doc) (db' : DB) :
  well_kept store →
  (∀ data, v = inr data → model_dump data !! "id" = None) →
  (data ← request_body v;
   cid ← create_document (collection_name model_cls) data;
   mret ({[ "id" := VStr cid ]} : doc)) (Some store) = (res, db') →
  ∃ store', db' = Some store' ∧ well_kept store'.
Proof.
  intros Hinv Hdump. destruct v as [es|data]; simpl.
  - intros [= _ <-]. eauto.
  - run. destruct (create_document (collection_name model_cls) data (Some store))
      as [r db1] eqn:Hc.
    apply (well_kept_create_document _ _ _ _ _ Hinv (Hdump data eq_refl)) in Hc
      as (store' & -> & Hkept).
    destruct r; intros [= _ <-]; eauto.
Qed.

Lemma handle_write_well_kept (w : WriteRequest) (store : Store)
    (res : result doc) (db' : DB) :
  well_kept store →
  handle_write w (Some store) = (res, db') →
  ∃ store', db' = Some store' ∧ well_kept store'.
Proof.
  intros Hinv. destruct w as [body|[body|body|body|body]|body|body|body|body]; simpl.
  - unfold signup. destruct (SignupPayload.validate body) as [es|payload]; simpl.
    + intros [= _ <-]. eauto.
    + run. simpl. destruct (User.validate _) as [es|data]; cbn -[create_document].
      * intros [= _ <-]. eauto.
      * match goal with
        | |- context [create_document ?c data (Some store)] =>
            destruct (create_document c data (Some store)) as [r db1] eqn:Hc
        end.
        apply (well_kept_create_document _ _ _ _ _ Hinv) in Hc
          as (store' & -> & Hkept); [|by destruct data].
        destruct r; intros [= _ <-]; eauto.
  - apply (well_kept_created Cat); [done|]. by intros [].
  - apply (well_kept_created Sighting); [done|]. by intros [].
  - apply (well_kept_created Place); [done|]. by intros [].
  - apply (well_kept_created Emergency); [done|]. by intros [].
  - apply (well_kept_created Post); [done|]. by intros [].
  - apply (well_kept_created Report); [done|]. by intros [].
  - apply (well_kept_created Badge); [done|]. by intros [].
  - apply (well_kept_created Article); [done|]. by intros [].
Qed.

(** X20: whatever sequence of signups and create requests is sent,
    accepted or not, a store whose documents all carry ["_id"] and have
    no field ["id"] stays so: no write operation stores a field called
    ["id"] or a document without identifier, and none drops the
    connection. *)
Theorem writes_keep_documents_well (ws : list WriteRequest) (store : Store) :
  well_kept store →
  ∃ store', run_writes ws (Some store) = Some store' ∧ well_kept store'.
Proof.
  revert store. induction ws as [|w ws IH]; intros store Hinv; simpl; [eauto|].
  destruct (handle_write w (Some store)) as [res db1] eqn:Hw.
  apply (handle_write_well_kept w store res db1 Hinv) in Hw as (store1 & -> & Hinv1).
  by apply IH.
Qed.

Lemma empty_store_well_kept : well_kept Sample.empty_store.
Proof.
  intros name d. unfold docs_of. simpl. rewrite lookup_empty. by intros ?%elem_of_nil.
Qed.

(** X21: on a store built from the empty one by any sequence of signups
    and create requests, every record a list operation returns is a
    stored document of the listed collection with ["_id"] renamed to
    ["id"] and turned into a string: nothing else is added, lost or
    changed. *)
Theorem listed_records_lose_nothing (ws : list WriteRequest) (r : ListRequest)
    (rs : list doc) (db' : DB) :
  handle_list r (run_writes ws (Some Sample.empty_store)) = (Ok rs, db') →
  ∃ store,
    run_writes ws (Some Sample.empty_store) = Some store
    ∧ ∀ rec, rec ∈ rs →
        ∃ d oid,
          d ∈ docs_of store (collection_name (source r))
          ∧ d !! "_id" = Some (VObjectId oid)
          ∧ rec !! "id" = Some (VStr (py_str (VObjectId oid)))
          ∧ delete "id" rec = delete "_id" d.
Proof.
  destruct (writes_keep_documents_well ws Sample.empty_store empty_store_well_kept)
    as (store & -> & Hinv).
  intros Hrun. exists store. split; [done|]. intros rec Hrec.
  destruct (handle_list_shape r) as [f Hshape]. rewrite Hshape in Hrun.
  destruct (stored_of_listed _ _ _ _ _ _ _ _ _ _ Hrun Hrec) as (d & Hd & ->).
  destruct (Hinv _ _ Hd) as [[oid Hoid] Hnoid].
  exists d, oid. split; [done|]. split; [done|].
  rewrite (to_public_with_id d _ Hoid). split; [apply lookup_insert_eq|].
  rewrite delete_insert_eq. apply delete_id. by rewrite lookup_delete_ne.
Qed.

End WellKept.

Lemma writes_keep_documents_well_witness :
  ∃ store',
    run_writes (H := Sample.runtime)
      [Signup Sample.pushy_signup; Create (CreateCat Fixture.nameless);
       Create (CreatePlace Fixture.zoo)]
      (Some Sample.empty_store) = Some store'
    ∧ well_kept store'.
Proof.
  apply (writes_keep_documents_well (H := Sample.runtime)
           [Signup Sample.pushy_signup; Create (CreateCat Fixture.nameless);
            Create (CreatePlace Fixture.zoo)]
           Sample.empty_store).
  apply empty_store_well_kept.
Defined.

Lemma listed_records_lose_nothing_witness :
  ∃ store,
    run_writes (H := Sample.runtime) [Create (CreateCat Fixture.nameless)]
      (Some Sample.empty_store) = Some store
    ∧ ∀ rec,
        rec ∈ [to_public (H := Sample.runtime)
                 (<["_id" := VObjectId 0]>
                    (model_dump (Cat.mk None None None None "unknown" None None)))] →
        ∃ d oid,
          d ∈ docs_of store "cat"
          ∧ d !! "_id" = Some (VObjectId oid)
          ∧ rec !! "id" = Some (VStr (pretty oid))
          ∧ delete "id" rec = delete "_id" d.
Proof.
  apply (listed_records_lose_nothing (H := Sample.runtime)
           [Create (CreateCat Fixture.nameless)] (ListCats None None)
           [to_public (H := Sample.runtime)
              (<["_id" := VObjectId 0]>
                 (model_dump (Cat.mk None None None None "unknown" None None)))]
           (run_writes (H := Sample.runtime) [Create (CreateCat Fixture.nameless)]
              (Some Sample.empty_store))).
  vm_compute. reflexivity.
Defined.

(** ** Failures *)

Section Failures.
Context `{Runtime}.

Lemma create_document_failure {A} `{BaseModel A} (c : string) (data : A)
    (db : DB) (e : error) (db' : DB) :
  create_document c data db = (Err e, db') → db' = db.
Proof.
  unfold create_document. destruct db as [store|]; [|by intros [= _ <-]].
  destruct (fault store); [by intros [= _ <-]|discriminate].
Qed.

Lemma created_failure {A} `{BaseModel A} (model_cls : Model)
    (v : list FieldError + A) (db : DB) (e : error) (db' : DB) :
  (data ← request_body v;
   cid ← create_document (collection_name model_cls) data;
   mret ({[ "id" := VStr cid ]} : doc)) db = (Err e, db') →
  db' = db.
Proof.
  destruct v as [es|data]; simpl; [by intros [= _ <-]|]. run.
  destruct (create_document (collection_name model_cls) data db) as [[uid|e'] db1] eqn:Hc;
    [discriminate|].
  intros [= _ <-]. exact (create_document_failure _ _ _ _ _ Hc).
Qed.

(** X22: a signup or create request that fails, for whatever reason
    (schema, invalid model, no connection, write error), leaves the
    store exactly as it was. *)
Theorem failed_write_changes_nothing (w : WriteRequest) (db : DB) (e : error) (db' : DB) :
  handle_write w db = (Err e, db') → db' = db.
Proof.
  destruct w as [body|[body|body|body|body]|body|body|body|body]; simpl.
  - unfold signup. destruct (SignupPayload.validate body) as [es|payload]; simpl.
    + by intros [= _ <-].
    + run. simpl. destruct (User.validate _) as [es|data]; cbn -[create_document].
      * by intros [= _ <-].
      * match goal with
        | |- context [create_document ?c data db] =>
            destruct (create_document c data db) as [[uid|e'] db1] eqn:Hc
        end; [discriminate|].
        intros [= _ <-]. exact (create_document_failure _ _ _ _ _ Hc).
  - apply (created_failure Cat).
  - apply (created_failure Sighting).
  - apply (created_failure Place).
  - apply (created_failure Emergency).
  - apply (created_failure Post).
  - apply (created_failure Report).
  - apply (created_failure Badge).
  - apply (created_failure Article).
Qed.

(** X23: free-text search hands [q] to the store as a pattern: when the
    store's engine does not compile it, the Cat list fails with a query
    error instead of returning records. *)
Theorem list_cats_bad_pattern_fails (q : string) (limit : option Z) (store : Store) :
  q ≠ "" →
  Regex.compile q "i" = None →
  fault store = None →
  match limit with Some n => (1 ≤ n ≤ 200)%Z | None => True end →
  ∃ msg, list_cats (Some q) limit (Some store) = (Err (QueryFailure msg), Some store).
Proof.
  intros Hq Hbad Hfault Hlimit.
  rewrite list_cats_listing, truthy_nonempty by done. simpl default.
  unfold listing, Query, get_documents. run.
  assert (filter_pred
            [ OrOf [ ("name", Regex q "i"); ("description", Regex q "i") ] ] = None) as Hf.
  { unfold filter_pred, clause_pred, field_pred, cond_pred. simpl. by rewrite Hbad. }
  destruct limit as [n|]; simpl.
  - destruct ((1 <=? n)%Z && (n <=? 200)%Z) eqn:Hr; [|lia].
    rewrite Hfault, Hf. eauto.
  - rewrite Hfault, Hf. eauto.
Qed.

End Failures.

Lemma failed_write_changes_nothing_witness :
  Some Sample.broken_store = Some Sample.broken_store.
Proof.
  apply (failed_write_changes_nothing (H := Sample.runtime)
           (Create (CreateCat Fixture.nameless)) (Some Sample.broken_store)
           (WriteFailure "connection reset") (Some Sample.broken_store)).
  reflexivity.
Defined.

Lemma list_cats_bad_pattern_fails_witness :
  ∃ msg,
    list_cats (H := Sample.runtime) (Some "(") None (Some (Sample.cats [Sample.tom]))
    = (Err (QueryFailure msg), Some (Sample.cats [Sample.tom])).
Proof.
  apply (list_cats_bad_pattern_fails (H := Sample.runtime) "(" None
           (Sample.cats [Sample.tom])); first [discriminate | reflexivity | exact I].
Defined.
